(** * BFS user file-system API (fs.c): a shallow embedding and its properties

    The development follows [src/fs.c].  The functions of [fs.c] are embedded
    statement by statement in a state-and-abort monad.  The layer below it
    ([bfs.c], [bio.c], [bfs.h]) is not part of the sources at hand; its
    functions are modelled from the specification and are marked as such. *)

From Stdlib Require Import ZArith List Lia Bool.
From Stdlib Require Import Init.Byte.
From stdpp Require Import base list.

Open Scope Z_scope.

(** ** Machine integers

    [i32] values are integers in the range of [in_i32]; every arithmetic
    operation of the source is followed by [wrap32].  C's [/] and [%]
    truncate toward zero, which is [Z.quot] and [Z.rem]. *)

Definition wrap32 (z : Z) : Z := (z + 2 ^ 31) mod 2 ^ 32 - 2 ^ 31.

Definition in_i32 (z : Z) : Prop := - 2 ^ 31 <= z < 2 ^ 31.

Definition add32 (a b : Z) : Z := wrap32 (a + b).
Definition sub32 (a b : Z) : Z := wrap32 (a - b).
Definition mul32 (a b : Z) : Z := wrap32 (a * b).
Definition div32 (a b : Z) : Z := wrap32 (Z.quot a b).
Definition rem32 (a b : Z) : Z := Z.rem a b.

(** ** Constants *)

(** Modelled from the spec: [BYTESPERBLOCK] is defined in [bfs.h], which is
    missing; the block size is "conventionally 512 bytes" (spec, section 6),
    the value the comments of [fsRead] use as well. *)
Definition BYTESPERBLOCK : Z := 512.

(** [SEEK_SET], [SEEK_CUR] and [SEEK_END] are those of [stdio.h]. *)
Definition SEEK_SET : Z := 0.
Definition SEEK_CUR : Z := 1.
Definition SEEK_END : Z := 2.

(** Error codes.  [EBADCURS], [EBADWHENCE] and [EDISKCREATE] are the names
    [fs.c] passes to [FATAL]; [ECODE ret] is an abort with the return code of
    a callee ([FATAL(ret)] in [fsFormat]).  The remaining ones are the failures
    the specification gives to the layer below. *)
Inductive errcode : Type :=
| EBADCURS
| EBADWHENCE
| EDISKCREATE
| ECODE (ret : Z)
| TooManyOpenFiles
| NoSpace
| BadBlockIndex
| BadInode
| BlockIO.

(** ** State *)

(** An entry of the open file table [g_oft]: [fsSeek] reaches the field
    [curs] directly; the specification (section 3) gives an entry an inode
    number, a byte cursor and a reference count. *)
Record OFTE : Type := mkOFTE { oinum : Z; curs : Z; refs : Z }.

(** An inode (spec, section 3): the logical size in bytes and the ordered
    list of owned physical block numbers. *)
Record Inode : Type := mkInode { isize : Z; iblocks : list Z }.

(** The calls [fs.c] makes to resolve, read, write and copy blocks are
    recorded, in order, in a ghost trace. *)
Inductive event : Type :=
| EvFbnToDbn (inum fbn dbn : Z)
| EvBioRead (dbn : Z)
| EvBioWrite (dbn : Z)
| EvMemcpy (n : Z).

Record FS : Type := mkFS {
  g_oft : list OFTE;
  inodes : list Inode;
  freelist : list bool;
  disk : list (list byte);
  trace : list event
}.

Definition set_oft (o : list OFTE) (st : FS) : FS :=
  mkFS o (inodes st) (freelist st) (disk st) (trace st).
Definition set_inodes (i : list Inode) (st : FS) : FS :=
  mkFS (g_oft st) i (freelist st) (disk st) (trace st).
Definition set_freelist (f : list bool) (st : FS) : FS :=
  mkFS (g_oft st) (inodes st) f (disk st) (trace st).
Definition set_disk (d : list (list byte)) (st : FS) : FS :=
  mkFS (g_oft st) (inodes st) (freelist st) d (trace st).
Definition log_event (e : event) (st : FS) : FS :=
  mkFS (g_oft st) (inodes st) (freelist st) (disk st) (trace st ++ [e]).

(** ** The monad: a call returns a value and a state, or aborts the process *)

Inductive result (A : Type) : Type :=
| Ok (a : A) (st : FS)
| Fatal (e : errcode).
Arguments Ok {A} a st.
Arguments Fatal {A} e.

Definition M (A : Type) : Type := FS -> result A.

Definition ret {A : Type} (a : A) : M A := fun st => Ok a st.

Definition bind {A B : Type} (c : M A) (k : A -> M B) : M B :=
  fun st => match c st with
            | Ok a st' => k a st'
            | Fatal e => Fatal e
            end.

Definition FATAL {A : Type} (e : errcode) : M A := fun _ => Fatal e.

Definition gets {A : Type} (f : FS -> A) : M A := fun st => Ok (f st) st.

Definition modify (f : FS -> FS) : M unit := fun st => Ok tt (f st).

Notation "'do' x <- c ; k" := (bind c (fun x => k))
  (at level 10, x name, c at level 100, k at level 200).

(** ** Memory *)

(** [memcpy(dst + doff, src, n)] on arrays kept as lists. *)
Definition memcpy (dst : list byte) (doff : Z) (src : list byte) (n : Z)
  : list byte :=
  take (Z.to_nat doff) dst ++ take (Z.to_nat n) src
    ++ drop (Z.to_nat (doff + n)) dst.

(** The call of [memcpy] in [fs.c], recorded in the trace. *)
Definition do_memcpy (dst : list byte) (doff : Z) (src : list byte) (n : Z)
  : M (list byte) :=
  do _ <- modify (log_event (EvMemcpy n));
  ret (memcpy dst doff src n).

(** Index of the first element that satisfies [p]. *)
Fixpoint find_index {A : Type} (p : A -> bool) (l : list A) : option nat :=
  match l with
  | [] => None
  | x :: l' => if p x then Some 0%nat else option_map S (find_index p l')
  end.

(** [g_oft[ofte].curs] as an expression and as the target of an assignment.
    The index always comes from [bfsFindOFTE], which returns one inside the
    table; outside of it a read gives 0 and a store does nothing. *)
Definition load_curs (ofte : Z) : M Z :=
  gets (fun st => from_option curs 0 (g_oft st !! Z.to_nat ofte)).

Definition store_curs (ofte : Z) (c : Z) : M unit :=
  modify (fun st =>
    set_oft (alter (fun e => mkOFTE (oinum e) c (refs e)) (Z.to_nat ofte)
                   (g_oft st)) st).

(** ** The layer below [fs.c] *)

(** Modelled from the spec: [bfsFdToInum] is missing.  A descriptor is "a
    deterministic transform of (or index paired with) the OFT entry", and
    several descriptors may resolve to one inode; the transform itself is
    left open. *)
Class Descriptors : Type := bfsFdToInum : Z -> Z.

Definition ofte_matches (inum : Z) (e : OFTE) : bool :=
  (oinum e =? inum) && (0 <? refs e).

Definition ofte_free (e : OFTE) : bool := refs e =? 0.

(** Modelled from the spec: [bfsFindOFTE] is missing.  There is one entry per
    inode ("find OFTE by inum", section 3), with a reference count of at least
    1 while it exists; when none exists a free slot is taken with cursor 0,
    and the table being full is [TooManyOpenFiles] (section 4.5). *)
Definition bfsFindOFTE (inum : Z) : M Z := fun st =>
  match find_index (ofte_matches inum) (g_oft st) with
  | Some k => Ok (Z.of_nat k) st
  | None =>
      match find_index ofte_free (g_oft st) with
      | Some k =>
          Ok (Z.of_nat k) (set_oft (<[k := mkOFTE inum 0 0]> (g_oft st)) st)
      | None => Fatal TooManyOpenFiles
      end
  end.

(** Modelled from the spec: [bfsDerefOFT] is missing.  Section 4.5, close:
    "resolve descriptor to its entry, decrement reference count; if it
    reaches 0, the entry is reclaimed (cursor discarded)".  Only the entry the
    inode already has is resolved: no slot is taken.  The spec names no
    failure of close (sections 4.5, 6 and 7), so an inode that has no entry
    leaves the table as it is. *)
Definition bfsDerefOFT (inum : Z) : M Z := fun st =>
  match find_index (ofte_matches inum) (g_oft st) with
  | Some k =>
      Ok 0 (set_oft (alter (fun e =>
                       let r := sub32 (refs e) 1 in
                       if r =? 0 then mkOFTE (oinum e) 0 0
                       else mkOFTE (oinum e) (curs e) r)
                     k (g_oft st)) st)
  | None => Ok 0 st
  end.

(** Modelled from the spec: [bfsSetCursor] is missing.  Section 4.5: the
    "cursor is read/mutated through the entry keyed by inode number". *)
Definition bfsSetCursor (inum newCurs : Z) : M Z :=
  do ofte <- bfsFindOFTE inum;
  do _ <- store_curs ofte newCurs;
  ret 0.

Definition inode_at (inum : Z) (st : FS) : option Inode :=
  if inum <? 0 then None else inodes st !! Z.to_nat inum.

(** Modelled from the spec: [bfsGetSize] is missing; it gives the logical
    size kept in the inode (sections 3 and 6). *)
Definition bfsGetSize (inum : Z) : M Z := fun st =>
  match inode_at inum st with
  | Some ino => Ok (isize ino) st
  | None => Fatal BadInode
  end.

(** Modelled from the spec: the allocator is missing.  Section 4.2: it
    "scans for the first free block, in increasing physical-block order ...
    marks it used, returns it. Fails with NoSpace if no free block exists". *)
Definition bfsAllocBlock : M Z := fun st =>
  match find_index negb (freelist st) with
  | Some k => Ok (Z.of_nat k) (set_freelist (<[k := true]> (freelist st)) st)
  | None => Fatal NoSpace
  end.

(** Modelled from the spec: [bfsFbnToDbn] is missing.  Section 4.3,
    resolveBlock: an index within the owned blocks gives the existing
    physical block; the index exactly one past the end allocates a block and
    appends it to the inode; an index further out fails fast with
    [BadBlockIndex]. *)
Definition bfsFbnToDbn (inum fbn : Z) : M Z := fun st =>
  match inode_at inum st with
  | None => Fatal BadInode
  | Some ino =>
      if fbn <? 0 then Fatal BadBlockIndex
      else
        match iblocks ino !! Z.to_nat fbn with
        | Some dbn => Ok dbn (log_event (EvFbnToDbn inum fbn dbn) st)
        | None =>
            if fbn =? Z.of_nat (length (iblocks ino)) then
              (do dbn <- bfsAllocBlock;
               do _ <- modify (fun s =>
                 set_inodes (<[Z.to_nat inum :=
                                 mkInode (isize ino) (iblocks ino ++ [dbn])]>
                               (inodes s)) s);
               do _ <- modify (log_event (EvFbnToDbn inum fbn dbn));
               ret dbn) st
            else Fatal BadBlockIndex
        end
  end.

(** Modelled from the spec: [bioRead] and [bioWrite] are missing.  Section 2:
    the primitive "reads/writes one fixed-size block by physical block number
    against the backing image"; a failure of it is fatal (section 7). *)
Definition bioRead (dbn : Z) : M (list byte) := fun st =>
  if dbn <? 0 then Fatal BlockIO
  else match disk st !! Z.to_nat dbn with
       | Some b => Ok b (log_event (EvBioRead dbn) st)
       | None => Fatal BlockIO
       end.

Definition bioWrite (dbn : Z) (bio : list byte) : M unit := fun st =>
  if dbn <? 0 then Fatal BlockIO
  else match disk st !! Z.to_nat dbn with
       | Some _ =>
           Ok tt (log_event (EvBioWrite dbn)
                    (set_disk (<[Z.to_nat dbn := bio]> (disk st)) st))
       | None => Fatal BlockIO
       end.

(** ** The functions of [fs.c] *)

Section FsApi.

Context {descriptors : Descriptors}.

(** Modelled from the spec: [bfsTell] is missing.  Section 4.5: the cursor is
    read through the entry keyed by the inode number of the descriptor. *)
Definition bfsTell (fd : Z) : M Z :=
  let inum := bfsFdToInum fd in
  do ofte <- bfsFindOFTE inum;
  load_curs ofte.

(** [fs.c], lines 11-15. *)
Definition fsClose (fd : Z) : M Z :=
  let inum := bfsFdToInum fd in
  do _ <- bfsDerefOFT inum;
  ret 0.

(** [fs.c], lines 193-196. *)
Definition fsSize (fd : Z) : M Z :=
  let inum := bfsFdToInum fd in
  bfsGetSize inum.

(** [fs.c], line 186. *)
Definition fsTell (fd : Z) : M Z := bfsTell fd.

(** [fs.c], lines 157-181. *)
Definition fsSeek (fd offset whence : Z) : M Z :=
  if offset <? 0 then FATAL EBADCURS
  else
    let inum := bfsFdToInum fd in
    do ofte <- bfsFindOFTE inum;
    do _ <- (if whence =? SEEK_SET then store_curs ofte offset
             else if whence =? SEEK_CUR then
               do c <- load_curs ofte;
               store_curs ofte (add32 c offset)
             else if whence =? SEEK_END then
               do e <- fsSize fd;
               store_curs ofte (add32 e offset)
             else FATAL EBADWHENCE);
    ret 0.

(** The loop of [fsRead] (lines 104-142), with [n] iterations left; [fbn]
    runs from [fbnStart] to [fbnEnd], and [cursor], [readBytes] and the
    contents of [buf] are carried from one iteration to the next. *)
Fixpoint fsRead_loop (n : nat) (inum numb fbnStart fbnEnd : Z)
    (fbn cursor readBytes : Z) (buf : list byte) : M (Z * list byte) :=
  match n with
  | O => ret (readBytes, buf)
  | S n' =>
      do dbn <- bfsFbnToDbn inum fbn;
      do bio <- bioRead dbn;
      let offset :=
        if fbn =? fbnStart then rem32 cursor BYTESPERBLOCK else 0 in
      let bytesToRead :=
        if fbn =? fbnEnd
        then sub32 (rem32 (add32 cursor numb) BYTESPERBLOCK) offset
        else sub32 BYTESPERBLOCK offset in
      do buf' <- do_memcpy buf readBytes (drop (Z.to_nat offset) bio)
                   bytesToRead;
      let cursor' := add32 cursor bytesToRead in
      let readBytes' := add32 readBytes bytesToRead in
      do _ <- bfsSetCursor inum cursor';
      fsRead_loop n' inum numb fbnStart fbnEnd
        (add32 fbn 1) cursor' readBytes' buf'
  end.

(** [fsRead] from a given cursor: lines 98-144. *)
Definition fsRead_at (inum cursor numb : Z) (buf : list byte)
  : M (Z * list byte) :=
  let fbnStart := div32 cursor BYTESPERBLOCK in
  let fbnEnd := div32 (add32 cursor numb) BYTESPERBLOCK in
  fsRead_loop (Z.to_nat (fbnEnd - fbnStart + 1)) inum numb fbnStart fbnEnd
    fbnStart cursor 0 buf.

(** [fs.c], lines 92-145.  The result is the return value together with the
    contents of [buf] after the call. *)
Definition fsRead (fd numb : Z) (buf : list byte) : M (Z * list byte) :=
  let inum := bfsFdToInum fd in
  do cursor <- bfsTell fd;
  fsRead_at inum cursor numb buf.

(** The loop of [fsWrite] (lines 216-240), with [n] iterations left. *)
Fixpoint fsWrite_loop (n : nat) (inum : Z) (buf : list byte)
    (i bytesToWrite bioOffset bufOffset : Z) : M unit :=
  match n with
  | O => ret tt
  | S n' =>
      if bytesToWrite =? 0 then ret tt
      else
        do dbnNum <- bfsFbnToDbn inum i;
        if 0 <? bioOffset then
          do bio <- bioRead dbnNum;
          let writing :=
            if bioOffset >=? bytesToWrite then bytesToWrite else bioOffset in
          do bio' <- do_memcpy bio (sub32 BYTESPERBLOCK bioOffset)
                       (drop (Z.to_nat bufOffset) buf) writing;
          do _ <- bioWrite dbnNum bio';
          fsWrite_loop n' inum buf (add32 i 1)
            (sub32 bytesToWrite writing) 0 (add32 bufOffset writing)
        else
          let writing :=
            if BYTESPERBLOCK >=? bytesToWrite
            then bytesToWrite else BYTESPERBLOCK in
          do bio <- bioRead dbnNum;
          do bio' <- do_memcpy bio 0 (drop (Z.to_nat bufOffset) buf) writing;
          do _ <- bioWrite dbnNum bio';
          fsWrite_loop n' inum buf (add32 i 1)
            (sub32 bytesToWrite writing) bioOffset (add32 bufOffset writing)
  end.

(** [fs.c], lines 203-244. *)
Definition fsWrite (fd numb : Z) (buf : list byte) : M Z :=
  let inum := bfsFdToInum fd in
  do cursor <- bfsTell fd;
  let fbnStart := div32 cursor BYTESPERBLOCK in
  let fbnEnd := div32 (add32 cursor numb) BYTESPERBLOCK in
  let bytesToWrite := numb in
  let bioOffset :=
    sub32 (mul32 (add32 fbnStart 1) BYTESPERBLOCK) cursor in
  let bufOffset := 0 in
  do _ <- fsWrite_loop (Z.to_nat (fbnEnd - fbnStart + 1)) inum buf
            fbnStart bytesToWrite bioOffset bufOffset;
  do _ <- bfsSetCursor inum (add32 cursor numb);
  ret 0.

End FsApi.

(** ** [fsFormat]

    [fopen] and the four initialisers of [bfs.c] are missing; they are
    taken as they are called: [fopen(BFSDISK, "w+b")] gives a handle on a
    new image or [NULL], and an initialiser returns a code. *)
Class FormatEnv : Type := {
  fopen_wb : FS -> option FS;
  bfsInitSuper : M Z;
  bfsInitInodes : M Z;
  bfsInitDir : M Z;
  bfsInitFreeList : M Z
}.

Section Format.

Context {env : FormatEnv}.

(** [if (ret != 0) { fclose(fp); FATAL(ret); }] *)
Definition check_ret (r : Z) : M unit :=
  if r =? 0 then ret tt else FATAL (ECODE r).

(** [fs.c], lines 32-63. *)
Definition fsFormat : M Z := fun st =>
  match fopen_wb st with
  | None => Fatal EDISKCREATE
  | Some st0 =>
      (do r <- bfsInitSuper;
       do _ <- check_ret r;
       do r <- bfsInitInodes;
       do _ <- check_ret r;
       do r <- bfsInitDir;
       do _ <- check_ret r;
       do r <- bfsInitFreeList;
       do _ <- check_ret r;
       ret 0) st0
  end.

End Format.

(** ** Vocabulary of the statements *)

(** The cursor of the open-file-table entry of an inode, when it has one. *)
Definition open_cursor (st : FS) (inum : Z) : option Z :=
  match find_index (ofte_matches inum) (g_oft st) with
  | Some k => curs <$> (g_oft st !! k)
  | None => None
  end.

(** The state in which the cursor of the entry of [inum] is [c]. *)
Definition with_cursor (inum c : Z) (st : FS) : FS :=
  match find_index (ofte_matches inum) (g_oft st) with
  | Some k =>
      set_oft (alter (fun e => mkOFTE (oinum e) c (refs e)) k (g_oft st)) st
  | None => st
  end.

(** The logical size kept in the inode. *)
Definition size_of (st : FS) (inum : Z) : option Z :=
  isize <$> inode_at inum st.

(** The byte of a file at a byte position, through the block list of its
    inode and the disk. *)
Definition file_byte (st : FS) (inum pos : Z) : option byte :=
  match inode_at inum st with
  | None => None
  | Some ino =>
      match iblocks ino !! Z.to_nat (pos / BYTESPERBLOCK) with
      | None => None
      | Some dbn =>
          if dbn <? 0 then None
          else match disk st !! Z.to_nat dbn with
               | None => None
               | Some blk => blk !! Z.to_nat (pos mod BYTESPERBLOCK)
               end
      end
  end.

(** The value a call returns, when it returns. *)
Definition value_of {A : Type} (r : result A) : option A :=
  match r with
  | Ok a _ => Some a
  | Fatal _ => None
  end.

(** The state a call leaves, when it returns ([d] otherwise). *)
Definition state_of {A : Type} (r : result A) (d : FS) : FS :=
  match r with
  | Ok _ st => st
  | Fatal _ => d
  end.

(** The trace a call leaves, when it returns. *)
Definition trace_of {A : Type} (r : result A) : option (list event) :=
  match r with
  | Ok _ st => Some (trace st)
  | Fatal _ => None
  end.

(** Well-formed file: the blocks of the inode are distinct and marked used in
    the free list, and every block of the disk holds [BYTESPERBLOCK] bytes
    (spec, section 3, invariant of the free list). *)
Definition block_used (fl : list bool) (d : Z) : bool :=
  (0 <=? d) && bool_decide (fl !! Z.to_nat d = Some true).

Definition block_sized (b : list byte) : bool :=
  Z.of_nat (length b) =? BYTESPERBLOCK.

Definition wf_file (st : FS) (inum : Z) : bool :=
  match inode_at inum st with
  | Some ino =>
      bool_decide (NoDup (iblocks ino))
      && forallb (block_used (freelist st)) (iblocks ino)
      && forallb block_sized (disk st)
  | None => false
  end.

(** The same as a proposition, for the inode [ino] of the file. *)
Record WF (st : FS) (inum : Z) (ino : Inode) : Prop := mkWF {
  wf_inode : inode_at inum st = Some ino;
  wf_nodup : NoDup (iblocks ino);
  wf_used :
    Forall (fun d => 0 <= d /\ freelist st !! Z.to_nat d = Some true)
           (iblocks ino);
  wf_sized :
    Forall (fun b => Z.of_nat (length b) = BYTESPERBLOCK) (disk st)
}.

(** ** A small disk used in the examples

    Two OFT slots, two inodes, six blocks of which the first two are
    reserved; descriptors [2 * inum] and [2 * inum + 1] both resolve to
    [inum]. *)
Definition ex_fds : Descriptors := fun fd => Z.quot fd 2.

Definition ex_state (c : Z) : FS :=
  mkFS [mkOFTE 0 0 0; mkOFTE 1 c 2]
       [mkInode 0 []; mkInode 0 []]
       [true; true; false; false; false; false]
       (repeat (repeat x00 512%nat) 6%nat)
       [].

(** A file of 2000 bytes (four blocks) behind inode 1. *)
Definition ex_state_2000 (c : Z) : FS :=
  mkFS [mkOFTE 0 0 0; mkOFTE 1 c 2]
       [mkInode 0 []; mkInode 2000 [2; 3; 4; 5]]
       [true; true; true; true; true; true]
       (repeat (repeat x00 512%nat) 6%nat)
       [].

(** An image on which every step of the format succeeds: the inode table is
    cleared, and every block after the two reserved ones is marked free. *)
Definition ex_env : FormatEnv := {|
  fopen_wb := fun st => Some (set_disk (repeat (repeat x00 512%nat) 6%nat) st);
  bfsInitSuper := ret 0;
  bfsInitInodes :=
    do _ <- modify (fun st =>
      set_inodes (map (fun _ => mkInode 0 []) (inodes st)) st);
    ret 0;
  bfsInitDir := ret 0;
  bfsInitFreeList :=
    do _ <- modify (set_freelist [true; true; false; false; false; false]);
    ret 0
|}.

(** An image whose inode table cannot be initialised (code 7). *)
Definition ex_env_bad : FormatEnv := {|
  fopen_wb := fun st => Some st;
  bfsInitSuper := ret 0;
  bfsInitInodes := ret 7;
  bfsInitDir := ret 0;
  bfsInitFreeList := ret 0
|}.

(** ** Vocabulary of the further properties *)

(** The number of bytes the loop of [fsRead] copies for a cursor and a
    count: the count itself when the byte at [cursor + numb] is in the block
    of the cursor, and otherwise the rest of the first block, the whole
    blocks in between and [numb % BYTESPERBLOCK] bytes of the last block. *)
Definition read_count (cursor numb : Z) : Z :=
  if cursor / BYTESPERBLOCK =? (cursor + numb) / BYTESPERBLOCK then numb
  else (BYTESPERBLOCK - cursor mod BYTESPERBLOCK)
       + BYTESPERBLOCK
         * ((cursor + numb) / BYTESPERBLOCK - cursor / BYTESPERBLOCK - 1)
       + numb mod BYTESPERBLOCK.

(** The count of the last [n] iterations of that loop, from a block
    boundary on. *)
Definition tail_count (numb : Z) (n : nat) : Z :=
  match n with
  | O => 0
  | S m => BYTESPERBLOCK * Z.of_nat m + numb mod BYTESPERBLOCK
  end.

(** The file blocks a trace resolves, in order, and the bytes it copies. *)
Definition resolved_fbns (tr : list event) : list Z :=
  flat_map (fun e => match e with
                     | EvFbnToDbn _ fbn _ => [fbn]
                     | _ => []
                     end) tr.

Definition copied_bytes (tr : list event) : Z :=
  fold_right (fun e acc => match e with
                           | EvMemcpy n => n + acc
                           | _ => acc
                           end) 0 tr.

(** The disk blocks a trace writes, in order. *)
Definition written_dbns (tr : list event) : list Z :=
  flat_map (fun e => match e with
                     | EvBioWrite dbn => [dbn]
                     | _ => []
                     end) tr.

(** The disk blocks a trace resolves file blocks to, and those it reads, in
    order. *)
Definition resolved_dbns (tr : list event) : list Z :=
  flat_map (fun e => match e with
                     | EvFbnToDbn _ _ dbn => [dbn]
                     | _ => []
                     end) tr.

Definition read_dbns (tr : list event) : list Z :=
  flat_map (fun e => match e with
                     | EvBioRead dbn => [dbn]
                     | _ => []
                     end) tr.

(** What a call keeps of the files: the blocks of the disk are as they were,
    the inodes other than [inum] too, and the inode [inum] has its size and
    its blocks, possibly with further blocks after them. *)
Definition files_kept (inum : Z) (st st' : FS) : Prop :=
  disk st' = disk st
  /\ (forall j, j <> inum -> inode_at j st' = inode_at j st)
  /\ (forall ino, inode_at inum st = Some ino ->
        exists ino' extra,
          inode_at inum st' = Some ino'
          /\ isize ino' = isize ino
          /\ iblocks ino' = iblocks ino ++ extra).

(** Two files kept apart: the blocks of [j] are marked used and none of them
    is a block of [i] (spec, section 3: "no block is referenced by two inodes
    simultaneously"). *)
Definition files_apart (st : FS) (i j : Z) : bool :=
  match inode_at i st, inode_at j st with
  | Some ino, Some jno =>
      forallb (fun d => block_used (freelist st) d
                        && negb (bool_decide (d ∈ iblocks ino)))
              (iblocks jno)
  | _, _ => false
  end.

(** What [fsWrite] does to the state of the blocks, read off its calls: the
    file may gain blocks that were free, the disk changes at blocks of the
    file only, and no block is released. *)
Record write_effect (inum : Z) (ino : Inode) (st st' : FS) : Prop := {
  we_oft : g_oft st' = g_oft st;
  we_others : forall j, j <> inum -> inode_at j st' = inode_at j st;
  we_inode : exists ino' extra,
    inode_at inum st' = Some ino'
    /\ isize ino' = isize ino
    /\ iblocks ino' = iblocks ino ++ extra
    /\ Forall (fun d => freelist st !! Z.to_nat d = Some false) extra
    /\ forall d, 0 <= d -> d ∉ iblocks ino' ->
         disk st' !! Z.to_nat d = disk st !! Z.to_nat d;
  we_used : forall k, freelist st !! k = Some true ->
                      freelist st' !! k = Some true;
  we_free : forall k, freelist st' !! k = Some false ->
                      freelist st !! k = Some false
}.

(** Three files on the example disk: inode 1 owns blocks 2 and 3, inode 2
    owns block 4, and block 5 is free. *)
Definition ex_state_two (c : Z) : FS :=
  mkFS [mkOFTE 2 7 1; mkOFTE 1 c 2]
       [mkInode 0 []; mkInode 1000 [2; 3]; mkInode 512 [4]]
       [true; true; true; true; true; false]
       (repeat (repeat x00 512%nat) 4%nat
        ++ [repeat x42 512%nat; repeat x00 512%nat])
       [].

(** * Properties *)

(** ** Machine integers *)

Lemma wrap32_id (z : Z) : in_i32 z -> wrap32 z = z.
Proof.
  unfold in_i32, wrap32. intros Hz.
  rewrite Z.mod_small by lia. lia.
Qed.

Lemma add32_id (a b : Z) : in_i32 (a + b) -> add32 a b = a + b.
Proof. apply wrap32_id. Qed.

Lemma sub32_id (a b : Z) : in_i32 (a - b) -> sub32 a b = a - b.
Proof. apply wrap32_id. Qed.

Lemma mul32_id (a b : Z) : in_i32 (a * b) -> mul32 a b = a * b.
Proof. apply wrap32_id. Qed.

Lemma div32_block (a : Z) :
  0 <= a < 2 ^ 31 -> div32 a BYTESPERBLOCK = a / BYTESPERBLOCK.
Proof.
  intros Ha. unfold div32, BYTESPERBLOCK.
  rewrite Z.quot_div_nonneg by lia.
  apply wrap32_id. unfold in_i32.
  assert (0 <= a / 512 <= a); [|lia].
  split; [apply Z.div_pos; lia|].
  apply Z.div_le_upper_bound; lia.
Qed.

Lemma rem32_block (a : Z) :
  0 <= a -> rem32 a BYTESPERBLOCK = a mod BYTESPERBLOCK.
Proof.
  intros Ha. unfold rem32, BYTESPERBLOCK. apply Z.rem_mod_nonneg; lia.
Qed.

(** ** The monad *)

Lemma bind_Ok {A B : Type} (c : M A) (k : A -> M B) (st st' : FS) (b : B) :
  bind c k st = Ok b st' ->
  exists a st1, c st = Ok a st1 /\ k a st1 = Ok b st'.
Proof.
  unfold bind. destruct (c st) as [a st1|e]; [eauto|discriminate].
Qed.

Lemma bind_cong {A B : Type} (c : M A) (k k' : A -> M B) (st : FS) :
  (forall a st1, c st = Ok a st1 -> k a st1 = k' a st1) ->
  bind c k st = bind c k' st.
Proof.
  intros H. unfold bind. destruct (c st) as [a st1|e]; [|reflexivity].
  apply H. reflexivity.
Qed.

Lemma bind_eq {A B : Type} (c : M A) (k : A -> M B) (st st1 : FS) (a : A) :
  c st = Ok a st1 -> bind c k st = k a st1.
Proof. unfold bind. intros ->. reflexivity. Qed.

(** ** Searching a table *)

Lemma find_index_Some {A : Type} (p : A -> bool) (l : list A) (k : nat) :
  find_index p l = Some k -> exists x, l !! k = Some x /\ p x = true.
Proof.
  revert k. induction l as [|x l IH]; intros k; simpl; [discriminate|].
  destruct (p x) eqn:Hp.
  - intros [= <-]. exists x. split; [reflexivity|assumption].
  - destruct (find_index p l) as [j|]; simpl; [|discriminate].
    intros [= <-]. apply (IH j). reflexivity.
Qed.

Lemma find_index_alter {A : Type} (p : A -> bool) (f : A -> A)
    (l : list A) (k : nat) :
  (forall x, p (f x) = p x) ->
  find_index p (alter f k l) = find_index p l.
Proof.
  intros Hf. revert k. induction l as [|x l IH]; intros k; [reflexivity|].
  destruct k as [|k]; simpl.
  - rewrite Hf. reflexivity.
  - change (list_alter f k l) with (alter f k l).
    rewrite (IH k). reflexivity.
Qed.

(** ** The open file table *)

Section OpenFileTable.

Context {descriptors : Descriptors}.

Lemma open_cursor_entry (st : FS) (inum c : Z) :
  open_cursor st inum = Some c ->
  exists k e, find_index (ofte_matches inum) (g_oft st) = Some k
              /\ g_oft st !! k = Some e /\ curs e = c.
Proof.
  unfold open_cursor.
  destruct (find_index (ofte_matches inum) (g_oft st)) as [k|]; [|discriminate].
  destruct (g_oft st !! k) as [e|] eqn:He; simpl; [|discriminate].
  intros [= <-]. exists k, e. auto.
Qed.

Lemma bfsFindOFTE_open (st : FS) (inum c : Z) :
  open_cursor st inum = Some c ->
  exists k, find_index (ofte_matches inum) (g_oft st) = Some k
            /\ bfsFindOFTE inum st = Ok (Z.of_nat k) st.
Proof.
  intros (k & e & Hk & _ & _)%open_cursor_entry.
  exists k. split; [assumption|].
  unfold bfsFindOFTE. rewrite Hk. reflexivity.
Qed.

Lemma bfsTell_open (fd : Z) (st : FS) (c : Z) :
  open_cursor st (bfsFdToInum fd) = Some c -> bfsTell fd st = Ok c st.
Proof.
  intros Hopen.
  destruct (open_cursor_entry _ _ _ Hopen) as (k & e & Hk & He & Hc).
  unfold bfsTell, bind, bfsFindOFTE. rewrite Hk.
  unfold load_curs, gets. rewrite Nat2Z.id, He. simpl. rewrite Hc.
  reflexivity.
Qed.

Lemma bfsSetCursor_open (st : FS) (inum c c' : Z) :
  open_cursor st inum = Some c ->
  bfsSetCursor inum c' st = Ok 0 (with_cursor inum c' st).
Proof.
  intros (k & e & Hk & _ & _)%open_cursor_entry.
  unfold bfsSetCursor, bind, bfsFindOFTE, with_cursor. rewrite Hk.
  unfold store_curs, modify, ret. rewrite Nat2Z.id. reflexivity.
Qed.

Lemma ofte_matches_set_curs (inum c : Z) (e : OFTE) :
  ofte_matches inum (mkOFTE (oinum e) c (refs e)) = ofte_matches inum e.
Proof. reflexivity. Qed.

Lemma open_cursor_with_cursor (st : FS) (inum c c' : Z) :
  open_cursor st inum = Some c ->
  open_cursor (with_cursor inum c' st) inum = Some c'.
Proof.
  intros (k & e & Hk & He & _)%open_cursor_entry.
  unfold open_cursor, with_cursor. rewrite Hk. simpl.
  rewrite find_index_alter by (intros x; apply ofte_matches_set_curs).
  rewrite Hk, list_lookup_alter_eq, He. reflexivity.
Qed.

Lemma with_cursor_same (st : FS) (inum c : Z) :
  open_cursor st inum = Some c -> with_cursor inum c st = st.
Proof.
  intros (k & e & Hk & He & Hc)%open_cursor_entry.
  unfold with_cursor. rewrite Hk.
  assert (Hl : alter (fun e0 => mkOFTE (oinum e0) c (refs e0)) k (g_oft st)
               = g_oft st).
  { apply list_eq. intros j. destruct (decide (k = j)) as [<-|Hne].
    - rewrite list_lookup_alter_eq, He. simpl. rewrite <- Hc.
      destruct e; reflexivity.
    - apply list_lookup_alter_ne. assumption. }
  rewrite Hl. destruct st; reflexivity.
Qed.

Lemma with_cursor_frame (st : FS) (inum c : Z) :
  inodes (with_cursor inum c st) = inodes st
  /\ freelist (with_cursor inum c st) = freelist st
  /\ disk (with_cursor inum c st) = disk st
  /\ trace (with_cursor inum c st) = trace st.
Proof.
  unfold with_cursor.
  destruct (find_index (ofte_matches inum) (g_oft st)); auto.
Qed.

Lemma size_of_with_cursor (st : FS) (inum j c : Z) :
  size_of (with_cursor inum c st) j = size_of st j.
Proof.
  unfold size_of, inode_at.
  destruct (with_cursor_frame st inum c) as (-> & _). reflexivity.
Qed.

Lemma bfsGetSize_size_of (st : FS) (inum s : Z) :
  size_of st inum = Some s -> bfsGetSize inum st = Ok s st.
Proof.
  unfold size_of, bfsGetSize.
  destruct (inode_at inum st); simpl; [|discriminate].
  intros [= <-]. reflexivity.
Qed.

End OpenFileTable.

(** ** [fsClose], [fsSeek] and [fsFormat] *)

Section Control.

Context {descriptors : Descriptors}.

(** C8.  [fsClose] returns 0 for every descriptor and in every state: it
    checks nothing about [fd], maps it to an inode and hands that inode to
    [bfsDerefOFT], and has no error return and no abort.  When the inode has
    an entry, that entry's reference count is decremented (the entry being
    reclaimed, cursor included, when the count reaches 0) and no other entry
    changes; a descriptor whose inode has no entry, because it was never
    opened or is already closed, leaves the state as it is.  Nothing but the
    open-file table is touched. *)
Theorem fsClose_returns_zero (fd : Z) (st : FS) :
  exists st',
    fsClose fd st = Ok 0 st'
    /\ inodes st' = inodes st /\ freelist st' = freelist st
    /\ disk st' = disk st /\ trace st' = trace st
    /\ length (g_oft st') = length (g_oft st)
    /\ (forall k e,
          find_index (ofte_matches (bfsFdToInum fd)) (g_oft st) = Some k ->
          g_oft st !! k = Some e ->
          0 < refs e /\ oinum e = bfsFdToInum fd
          /\ g_oft st' !! k
             = Some (if sub32 (refs e) 1 =? 0 then mkOFTE (oinum e) 0 0
                     else mkOFTE (oinum e) (curs e) (sub32 (refs e) 1))
          /\ forall k', k' <> k -> g_oft st' !! k' = g_oft st !! k')
    /\ (find_index (ofte_matches (bfsFdToInum fd)) (g_oft st) = None ->
        st' = st).
Proof.
  unfold fsClose, bfsDerefOFT, bind, ret.
  destruct (find_index (ofte_matches (bfsFdToInum fd)) (g_oft st)) as [k|]
    eqn:Hfind.
  - eexists. split; [reflexivity|]. simpl.
    repeat (split; [reflexivity|]).
    split; [apply length_alter|].
    split; [|discriminate].
    intros k0 e [= <-] He.
    destruct (find_index_Some _ _ _ Hfind) as (e' & He' & Hm).
    rewrite He in He'. injection He' as <-.
    unfold ofte_matches in Hm. apply andb_prop in Hm as [Hi Hr].
    apply Z.eqb_eq in Hi. apply Z.ltb_lt in Hr.
    split; [assumption|]. split; [assumption|]. split.
    + rewrite list_lookup_alter_eq, He. reflexivity.
    + intros k' Hk'. apply list_lookup_alter_ne. congruence.
  - exists st. split; [reflexivity|].
    repeat (split; [reflexivity|]).
    split; [discriminate|reflexivity].
Qed.

(** C5, as the code has it.  A negative [offset] aborts with [EBADCURS]
    whatever [whence] is; for an [offset] that is not negative, [SEEK_SET]
    assigns it to the cursor, [SEEK_CUR] adds it to the cursor and [SEEK_END]
    sets the cursor to the logical size plus [offset] (the sums being [i32]
    values); after [fsSeek(fd, 0, SEEK_END)], [fsTell] is [fsSize]. *)
Theorem fsSeek_semantics (fd offset : Z) (st : FS) (c s : Z) :
  open_cursor st (bfsFdToInum fd) = Some c ->
  size_of st (bfsFdToInum fd) = Some s ->
  in_i32 s ->
  (forall whence, offset < 0 -> fsSeek fd offset whence st = Fatal EBADCURS)
  /\ (0 <= offset ->
      fsSeek fd offset SEEK_SET st
      = Ok 0 (with_cursor (bfsFdToInum fd) offset st))
  /\ (0 <= offset -> in_i32 (c + offset) ->
      fsSeek fd offset SEEK_CUR st
      = Ok 0 (with_cursor (bfsFdToInum fd) (c + offset) st))
  /\ (0 <= offset -> in_i32 (s + offset) ->
      fsSeek fd offset SEEK_END st
      = Ok 0 (with_cursor (bfsFdToInum fd) (s + offset) st))
  /\ (forall x, fsTell fd (with_cursor (bfsFdToInum fd) x st)
                = Ok x (with_cursor (bfsFdToInum fd) x st))
  /\ (do _ <- fsSeek fd 0 SEEK_END; fsTell fd) st
     = Ok s (with_cursor (bfsFdToInum fd) s st)
  /\ fsSize fd (with_cursor (bfsFdToInum fd) s st)
     = Ok s (with_cursor (bfsFdToInum fd) s st).
Proof.
  intros Hopen Hsize Hs.
  destruct (open_cursor_entry _ _ _ Hopen) as (k & e & Hk & He & Hc).
  assert (Hfind : bfsFindOFTE (bfsFdToInum fd) st = Ok (Z.of_nat k) st)
    by (unfold bfsFindOFTE; rewrite Hk; reflexivity).
  assert (Hset : forall x,
    fsSeek fd x SEEK_SET st
    = if x <? 0 then Fatal EBADCURS
      else Ok 0 (with_cursor (bfsFdToInum fd) x st)).
  { intros x. unfold fsSeek. destruct (x <? 0); [reflexivity|].
    unfold bind. rewrite Hfind. simpl.
    unfold with_cursor. rewrite Hk, Nat2Z.id. reflexivity. }
  assert (Hend : forall x, 0 <= x -> in_i32 (s + x) ->
    fsSeek fd x SEEK_END st
    = Ok 0 (with_cursor (bfsFdToInum fd) (s + x) st)).
  { intros x Hx Hr. unfold fsSeek.
    destruct (x <? 0) eqn:Hneg; [lia|].
    unfold bind. rewrite Hfind. simpl.
    unfold fsSize. rewrite (bfsGetSize_size_of _ _ _ Hsize).
    rewrite add32_id by assumption.
    unfold with_cursor, store_curs, modify. rewrite Hk, Nat2Z.id.
    reflexivity. }
  assert (Htell : forall x, fsTell fd (with_cursor (bfsFdToInum fd) x st)
                = Ok x (with_cursor (bfsFdToInum fd) x st)).
  { intros x. apply bfsTell_open.
    apply (open_cursor_with_cursor _ _ c). assumption. }
  split; [|split; [|split; [|split; [|split; [|split]]]]].
  - intros whence Hneg. unfold fsSeek.
    destruct (offset <? 0) eqn:Hlt; [reflexivity|lia].
  - intros Hpos. rewrite Hset.
    destruct (offset <? 0) eqn:Hlt; [lia|reflexivity].
  - intros Hpos Hr. unfold fsSeek.
    destruct (offset <? 0) eqn:Hneg; [lia|].
    unfold bind. rewrite Hfind. simpl.
    unfold load_curs, gets. rewrite Nat2Z.id, He. simpl.
    rewrite Hc, add32_id by assumption.
    unfold with_cursor. rewrite Hk. reflexivity.
  - apply Hend.
  - exact Htell.
  - unfold bind at 1. rewrite (Hend 0) by (rewrite ?Z.add_0_r; auto; lia).
    rewrite Z.add_0_r. apply Htell.
  - unfold fsSize. apply bfsGetSize_size_of.
    rewrite size_of_with_cursor. assumption.
Qed.

End Control.

Section FormatProps.

Context {env : FormatEnv}.

(** C7.  [fsFormat] runs the initialisers of the SuperBlock, the Inodes, the
    Directory and the Free-List in this order, each on the state its
    predecessor left; it returns only 0, and it does so exactly when the
    image could be created and the four steps returned 0.  An image that
    cannot be created aborts with [EDISKCREATE], and the first step that
    returns a code other than 0 aborts with that code: no error value reaches
    the caller. *)
Theorem fsFormat_behaviour (st : FS) :
  (fopen_wb st = None -> fsFormat st = Fatal EDISKCREATE)
  /\ (forall r st', fsFormat st = Ok r st' <->
        r = 0 /\ exists st0 st1 st2 st3,
          fopen_wb st = Some st0
          /\ bfsInitSuper st0 = Ok 0 st1
          /\ bfsInitInodes st1 = Ok 0 st2
          /\ bfsInitDir st2 = Ok 0 st3
          /\ bfsInitFreeList st3 = Ok 0 st')
  /\ (forall st0 r st1, fopen_wb st = Some st0 ->
        bfsInitSuper st0 = Ok r st1 -> r <> 0 ->
        fsFormat st = Fatal (ECODE r))
  /\ (forall st0 st1 r st2, fopen_wb st = Some st0 ->
        bfsInitSuper st0 = Ok 0 st1 ->
        bfsInitInodes st1 = Ok r st2 -> r <> 0 ->
        fsFormat st = Fatal (ECODE r))
  /\ (forall st0 st1 st2 r st3, fopen_wb st = Some st0 ->
        bfsInitSuper st0 = Ok 0 st1 ->
        bfsInitInodes st1 = Ok 0 st2 ->
        bfsInitDir st2 = Ok r st3 -> r <> 0 ->
        fsFormat st = Fatal (ECODE r))
  /\ (forall st0 st1 st2 st3 r st4, fopen_wb st = Some st0 ->
        bfsInitSuper st0 = Ok 0 st1 ->
        bfsInitInodes st1 = Ok 0 st2 ->
        bfsInitDir st2 = Ok 0 st3 ->
        bfsInitFreeList st3 = Ok r st4 -> r <> 0 ->
        fsFormat st = Fatal (ECODE r)).
Proof.
  assert (Hchk : forall r s, r <> 0 -> check_ret r s = Fatal (ECODE r)).
  { intros r s Hr. unfold check_ret.
    destruct (r =? 0) eqn:E; [apply Z.eqb_eq in E; contradiction|reflexivity]. }
  unfold fsFormat.
  split; [intros ->; reflexivity|].
  split.
  - intros r st'. split.
    + destruct (fopen_wb st) as [st0|]; [|discriminate].
      unfold bind, check_ret, ret, FATAL.
      destruct (bfsInitSuper st0) as [r1 st1|] eqn:H1; [|discriminate].
      destruct (r1 =? 0) eqn:E1; [apply Z.eqb_eq in E1; subst r1|discriminate].
      destruct (bfsInitInodes st1) as [r2 st2|] eqn:H2; [|discriminate].
      destruct (r2 =? 0) eqn:E2; [apply Z.eqb_eq in E2; subst r2|discriminate].
      destruct (bfsInitDir st2) as [r3 st3|] eqn:H3; [|discriminate].
      destruct (r3 =? 0) eqn:E3; [apply Z.eqb_eq in E3; subst r3|discriminate].
      destruct (bfsInitFreeList st3) as [r4 st4|] eqn:H4; [|discriminate].
      destruct (r4 =? 0) eqn:E4; [apply Z.eqb_eq in E4; subst r4|discriminate].
      intros [= <- <-]. split; [reflexivity|].
      exists st0, st1, st2, st3. repeat split; assumption.
    + intros (-> & st0 & st1 & st2 & st3 & -> & H1 & H2 & H3 & H4).
      unfold bind. rewrite H1. simpl. rewrite H2. simpl.
      rewrite H3. simpl. rewrite H4. reflexivity.
  - repeat split.
    + intros st0 r st1 -> H1 Hr. unfold bind. rewrite H1, Hchk; auto.
    + intros st0 st1 r st2 -> H1 H2 Hr. unfold bind. rewrite H1. simpl.
      rewrite H2, Hchk; auto.
    + intros st0 st1 st2 r st3 -> H1 H2 H3 Hr. unfold bind.
      rewrite H1. simpl. rewrite H2. simpl. rewrite H3, Hchk; auto.
    + intros st0 st1 st2 st3 r st4 -> H1 H2 H3 H4 Hr. unfold bind.
      rewrite H1. simpl. rewrite H2. simpl. rewrite H3. simpl.
      rewrite H4, Hchk; auto.
Qed.

End FormatProps.

(** ** Copying bytes *)

Lemma length_memcpy (dst src : list byte) (off w : Z) :
  0 <= off -> 0 <= w ->
  off + w <= Z.of_nat (length dst) -> w <= Z.of_nat (length src) ->
  length (memcpy dst off src w) = length dst.
Proof.
  intros Hoff Hw Hd Hs. unfold memcpy.
  rewrite !length_app, !length_take, length_drop. lia.
Qed.

Lemma lookup_memcpy_in (dst src : list byte) (off w q : Z) :
  0 <= off -> off <= Z.of_nat (length dst) ->
  w <= Z.of_nat (length src) ->
  off <= q < off + w ->
  memcpy dst off src w !! Z.to_nat q = src !! Z.to_nat (q - off).
Proof.
  intros Hoff Hd Hs Hq. unfold memcpy.
  rewrite lookup_app_r by (rewrite length_take; lia).
  rewrite length_take.
  rewrite lookup_app_l by (rewrite length_take; lia).
  rewrite lookup_take_lt by lia.
  f_equal. lia.
Qed.

Lemma lookup_memcpy_out (dst src : list byte) (off w q : Z) :
  0 <= off -> 0 <= w -> 0 <= q ->
  off + w <= Z.of_nat (length dst) -> w <= Z.of_nat (length src) ->
  ~ (off <= q < off + w) ->
  memcpy dst off src w !! Z.to_nat q = dst !! Z.to_nat q.
Proof.
  intros Hoff Hw Hq Hd Hs Hout. unfold memcpy.
  destruct (Z_lt_dec q off) as [Hlt|Hge].
  - rewrite lookup_app_l by (rewrite length_take; lia).
    apply lookup_take_lt. lia.
  - rewrite lookup_app_r by (rewrite length_take; lia).
    rewrite lookup_app_r by (rewrite !length_take; lia).
    rewrite lookup_drop, !length_take. f_equal. lia.
Qed.

(** ** Well-formed files and the block layer *)

Lemma wf_file_WF (st : FS) (inum : Z) :
  wf_file st inum = true -> exists ino, WF st inum ino.
Proof.
  unfold wf_file. destruct (inode_at inum st) as [ino|] eqn:Hino;
    [|discriminate].
  intros H. apply andb_prop in H as [H Hsized].
  apply andb_prop in H as [Hnd Hused].
  exists ino. split.
  - assumption.
  - apply bool_decide_eq_true in Hnd. assumption.
  - apply Forall_forall. intros d Hd.
    rewrite forallb_forall in Hused.
    specialize (Hused d). rewrite <- list_elem_of_In in Hused.
    apply Hused in Hd. unfold block_used in Hd.
    apply andb_prop in Hd as [H0 H1].
    apply bool_decide_eq_true in H1. split; [lia|assumption].
  - apply Forall_forall. intros b Hb.
    rewrite forallb_forall in Hsized.
    specialize (Hsized b). rewrite <- list_elem_of_In in Hsized.
    apply Hsized in Hb. unfold block_sized in Hb. lia.
Qed.

Lemma WF_wf_file (st : FS) (inum : Z) (ino : Inode) :
  WF st inum ino -> wf_file st inum = true.
Proof.
  intros [Hino Hnd Hused Hsized]. unfold wf_file. rewrite Hino.
  rewrite !andb_true_iff. repeat split.
  - apply bool_decide_eq_true. assumption.
  - apply forallb_forall. intros d Hd. rewrite <- list_elem_of_In in Hd.
    rewrite Forall_forall in Hused. destruct (Hused d Hd) as [H0 H1].
    unfold block_used. rewrite andb_true_iff. split; [lia|].
    apply bool_decide_eq_true. assumption.
  - apply forallb_forall. intros b Hb. rewrite <- list_elem_of_In in Hb.
    rewrite Forall_forall in Hsized. specialize (Hsized b Hb).
    unfold block_sized. lia.
Qed.

Lemma WF_log (st : FS) (inum : Z) (ino : Inode) (e : event) :
  WF st inum ino -> WF (log_event e st) inum ino.
Proof. intros [Hino Hnd Hused Hsized]. split; assumption. Qed.

Lemma WF_inum_range (st : FS) (inum : Z) (ino : Inode) :
  WF st inum ino ->
  0 <= inum /\ inodes st !! Z.to_nat inum = Some ino.
Proof.
  intros [Hino _ _ _]. unfold inode_at in Hino.
  destruct (inum <? 0) eqn:Hneg; [discriminate|]. split; [lia|assumption].
Qed.

(** [bfsFbnToDbn] on a well-formed file: the block list is kept or grows by
    the block returned, which was free; the size, the table of open files
    and the disk are left alone. *)
Lemma bfsFbnToDbn_spec (st st1 : FS) (inum i dbn : Z) (ino : Inode) :
  WF st inum ino -> 0 <= i ->
  bfsFbnToDbn inum i st = Ok dbn st1 ->
  exists ino1,
    WF st1 inum ino1
    /\ isize ino1 = isize ino
    /\ iblocks ino1 !! Z.to_nat i = Some dbn
    /\ (forall j d, iblocks ino !! j = Some d -> iblocks ino1 !! j = Some d)
    /\ g_oft st1 = g_oft st
    /\ disk st1 = disk st
    /\ (forall j, j <> inum -> inode_at j st1 = inode_at j st).
Proof.
  intros Hwf Hi. pose proof Hwf as [Hino Hnd Hused Hsized].
  destruct (WF_inum_range _ _ _ Hwf) as [Hinum Hlk].
  unfold bfsFbnToDbn. rewrite Hino.
  destruct (i <? 0) eqn:Hneg; [lia|].
  destruct (iblocks ino !! Z.to_nat i) as [d|] eqn:Hd.
  - intros [= <- <-]. exists ino.
    split; [apply WF_log; assumption|]. repeat split; auto.
  - destruct (i =? Z.of_nat (length (iblocks ino))) eqn:Hlen; [|discriminate].
    unfold bind, bfsAllocBlock.
    destruct (find_index negb (freelist st)) as [k|] eqn:Hk; [|discriminate].
    simpl. intros [= <- <-].
    destruct (find_index_Some _ _ _ Hk) as (b & Hb & Hnb).
    destruct b; [discriminate|].
    pose proof (lookup_lt_Some _ _ _ Hb) as Hklt.
    pose proof (lookup_lt_Some _ _ _ Hlk) as Hinlt.
    exists (mkInode (isize ino) (iblocks ino ++ [Z.of_nat k])).
    split; [split|]; simpl.
    + unfold inode_at. simpl. destruct (inum <? 0) eqn:Hn; [lia|].
      apply list_lookup_insert_eq. assumption.
    + apply NoDup_app. split; [assumption|]. split; [|apply NoDup_singleton].
      intros x Hx Hin. apply list_elem_of_singleton in Hin. subst x.
      rewrite Forall_forall in Hused. destruct (Hused _ Hx) as [_ Hu].
      rewrite Nat2Z.id in Hu. congruence.
    + apply Forall_app. split.
      * eapply Forall_impl; [exact Hused|]. simpl. intros x [Hx0 Hxu].
        split; [assumption|].
        destruct (decide (k = Z.to_nat x)) as [->|Hne].
        -- apply list_lookup_insert_eq. assumption.
        -- rewrite list_lookup_insert_ne by assumption. assumption.
      * apply Forall_singleton. split; [lia|].
        rewrite Nat2Z.id. apply list_lookup_insert_eq. assumption.
    + assumption.
    + repeat split; auto.
      * apply Z.eqb_eq in Hlen. rewrite Hlen, Nat2Z.id.
        rewrite lookup_app_r by lia.
        rewrite Nat.sub_diag. reflexivity.
      * intros j d Hj. apply lookup_app_l_Some. assumption.
      * intros j Hj. unfold inode_at. simpl.
        destruct (j <? 0) eqn:Hjn; [reflexivity|].
        apply list_lookup_insert_ne. lia.
Qed.

Lemma file_byte_unfold (st : FS) (inum p : Z) (ino : Inode) :
  inode_at inum st = Some ino ->
  file_byte st inum p
  = match iblocks ino !! Z.to_nat (p / BYTESPERBLOCK) with
    | None => None
    | Some dbn =>
        if dbn <? 0 then None
        else match disk st !! Z.to_nat dbn with
             | None => None
             | Some blk => blk !! Z.to_nat (p mod BYTESPERBLOCK)
             end
    end.
Proof. intros H. unfold file_byte. rewrite H. reflexivity. Qed.

(** One block of [fsWrite]: resolve block [i] of the file, read it, copy [w]
    bytes of [src] to offset [off] of it and write it back.  These bytes are
    then in the file, and every byte the file already had elsewhere is kept. *)
Lemma write_block_spec (st st1 st2 st3 st4 : FS) (inum i off w dbn : Z)
    (src bio bio' : list byte) (ino : Inode) :
  WF st inum ino -> 0 <= i -> 0 <= off -> 0 <= w ->
  off + w <= BYTESPERBLOCK -> w <= Z.of_nat (length src) ->
  bfsFbnToDbn inum i st = Ok dbn st1 ->
  bioRead dbn st1 = Ok bio st2 ->
  do_memcpy bio off src w st2 = Ok bio' st3 ->
  bioWrite dbn bio' st3 = Ok tt st4 ->
  exists ino4,
    WF st4 inum ino4
    /\ isize ino4 = isize ino
    /\ g_oft st4 = g_oft st
    /\ (forall j, j <> inum -> inode_at j st4 = inode_at j st)
    /\ (forall p v, 0 <= p ->
          ~ (p / BYTESPERBLOCK = i /\ off <= p mod BYTESPERBLOCK < off + w) ->
          file_byte st inum p = Some v -> file_byte st4 inum p = Some v)
    /\ (forall p, 0 <= p -> p / BYTESPERBLOCK = i ->
          off <= p mod BYTESPERBLOCK < off + w ->
          file_byte st4 inum p
          = src !! Z.to_nat (p mod BYTESPERBLOCK - off)).
Proof.
  intros Hwf Hi Hoff Hw Hfit Hsrc Hres Hrd Hcp Hwr.
  destruct (bfsFbnToDbn_spec _ _ _ _ _ _ Hwf Hi Hres)
    as (ino1 & Hwf1 & Hsz & Hlki & Hpre & Hoft1 & Hdisk1 & Hoth).
  unfold bioRead in Hrd.
  destruct (dbn <? 0) eqn:Hdneg; [discriminate|].
  destruct (disk st1 !! Z.to_nat dbn) as [b|] eqn:Hbio; [|discriminate].
  injection Hrd as -> <-.
  unfold do_memcpy, bind, modify, ret in Hcp. injection Hcp as <- <-.
  unfold bioWrite in Hwr. rewrite Hdneg in Hwr. simpl in Hwr.
  rewrite Hbio in Hwr. injection Hwr as <-.
  pose proof Hwf1 as [Hino1 Hnd1 Hused1 Hsized1].
  pose proof (Forall_lookup_1 _ _ _ _ Hsized1 Hbio) as Hblen.
  simpl in Hblen.
  pose proof (lookup_lt_Some _ _ _ Hbio) as Hdlt.
  assert (Hnewlen :
    Z.of_nat (length (memcpy bio off src w)) = BYTESPERBLOCK).
  { rewrite length_memcpy; lia. }
  exists ino1. split; [split; simpl; try assumption|].
  { apply Forall_insert; assumption. }
  split; [assumption|]. split; [assumption|]. split; [exact Hoth|].
  split.
  - intros p v Hp Hout.
    destruct Hwf as [Hino _ _ _].
    rewrite (file_byte_unfold st _ _ _ Hino).
    rewrite (file_byte_unfold _ inum p ino1) by exact Hino1.
    cbn [disk log_event set_disk].
    destruct (iblocks ino !! Z.to_nat (p / BYTESPERBLOCK)) as [d|] eqn:Hd;
      [|discriminate].
    rewrite (Hpre _ _ Hd).
    destruct (d <? 0) eqn:Hdn; [discriminate|].
    rewrite <- Hdisk1.
    destruct (decide (Z.to_nat dbn = Z.to_nat d)) as [Heq|Hne].
    + assert (d = dbn) by lia. subst d.
      rewrite list_lookup_insert_eq by assumption. rewrite Hbio.
      assert (Hsame : Z.to_nat (p / BYTESPERBLOCK) = Z.to_nat i).
      { eapply NoDup_lookup; [exact Hnd1| |exact Hlki].
        apply Hpre. assumption. }
      assert (0 <= p / BYTESPERBLOCK)
        by (apply Z.div_pos; unfold BYTESPERBLOCK; lia).
      assert (0 <= p mod BYTESPERBLOCK)
        by (apply Z.mod_pos_bound; unfold BYTESPERBLOCK; lia).
      rewrite lookup_memcpy_out; auto; lia.
    + rewrite list_lookup_insert_ne by assumption. auto.
  - intros p Hp Hblk Hin.
    rewrite (file_byte_unfold _ inum p ino1) by exact Hino1.
    cbn [disk log_event set_disk].
    rewrite Hblk, Hlki, Hdneg.
    rewrite list_lookup_insert_eq by assumption.
    apply lookup_memcpy_in; lia.
Qed.

(** ** The loop of [fsWrite] *)

Lemma block_div_mod (p i off : Z) :
  0 <= off < BYTESPERBLOCK ->
  p / BYTESPERBLOCK = i /\ p mod BYTESPERBLOCK = off
  <-> p = BYTESPERBLOCK * i + off.
Proof.
  unfold BYTESPERBLOCK. intros Hoff. split.
  - intros [<- <-]. apply Z.div_mod. lia.
  - intros ->. split.
    + rewrite Z.mul_comm, Z.div_add_l by lia.
      rewrite Z.div_small by lia. lia.
    + rewrite Z.add_comm, Z.mul_comm, Z.mod_add by lia.
      apply Z.mod_small. lia.
Qed.

Lemma block_bounds (p : Z) :
  0 <= p ->
  0 <= p / BYTESPERBLOCK <= p
  /\ 0 <= p mod BYTESPERBLOCK < BYTESPERBLOCK
  /\ p = BYTESPERBLOCK * (p / BYTESPERBLOCK) + p mod BYTESPERBLOCK.
Proof.
  unfold BYTESPERBLOCK. intros Hp.
  pose proof (Z.div_mod p 512 ltac:(lia)).
  pose proof (Z.mod_pos_bound p 512 ltac:(lia)).
  assert (0 <= p / 512) by (apply Z.div_pos; lia).
  lia.
Qed.

(** One iteration of the loop, both branches at once: with the cursor of the
    iteration at [c + bufOffset], it copies as many bytes as are left, at
    most up to the end of the block, to the offset of the cursor in block
    [i]. *)
Lemma fsWrite_loop_step (n : nat) (inum : Z) (buf : list byte)
    (c numb i btw bioOff bufOff : Z) (st : FS) :
  0 <= c -> 0 <= bufOff -> 0 < btw -> bufOff + btw = numb ->
  c + numb < 2 ^ 31 ->
  i = (c + bufOff) / BYTESPERBLOCK ->
  (bioOff = BYTESPERBLOCK - (c + bufOff) mod BYTESPERBLOCK
   \/ (bioOff = 0 /\ (c + bufOff) mod BYTESPERBLOCK = 0)) ->
  fsWrite_loop (S n) inum buf i btw bioOff bufOff st
  = (do dbn <- bfsFbnToDbn inum i;
     do bio <- bioRead dbn;
     do bio' <- do_memcpy bio ((c + bufOff) mod BYTESPERBLOCK)
                  (drop (Z.to_nat bufOff) buf)
                  (Z.min btw
                     (BYTESPERBLOCK - (c + bufOff) mod BYTESPERBLOCK));
     do _ <- bioWrite dbn bio';
     fsWrite_loop n inum buf (i + 1)
       (btw - Z.min btw (BYTESPERBLOCK - (c + bufOff) mod BYTESPERBLOCK))
       0
       (bufOff
        + Z.min btw (BYTESPERBLOCK - (c + bufOff) mod BYTESPERBLOCK))) st.
Proof.
  intros Hc Hbo Hbtw Hsum Hmax Hi Hoff.
  destruct (block_bounds (c + bufOff) ltac:(lia)) as (Hd & Hm & Hdm).
  set (off := (c + bufOff) mod BYTESPERBLOCK) in *.
  set (w := Z.min btw (BYTESPERBLOCK - off)).
  assert (Hw : 0 < w <= btw /\ w <= BYTESPERBLOCK - off) by lia.
  assert (Hi1 : add32 i 1 = i + 1).
  { apply add32_id. unfold in_i32. lia. }
  assert (Hb1 : sub32 btw w = btw - w).
  { apply sub32_id. unfold in_i32. lia. }
  assert (Hf1 : add32 bufOff w = bufOff + w).
  { apply add32_id. unfold in_i32. lia. }
  cbn [fsWrite_loop].
  destruct (btw =? 0) eqn:Hz; [lia|].
  apply bind_cong. intros dbn st1 _.
  unfold BYTESPERBLOCK in *.
  destruct Hoff as [Hoff|[Hoff Hal]].
  - destruct (0 <? bioOff) eqn:Hpos; [|lia].
    assert (Ho : sub32 512 bioOff = off).
    { rewrite sub32_id; unfold in_i32; lia. }
    assert (Hwr : (if bioOff >=? btw then btw else bioOff) = w).
    { rewrite Z.geb_leb. destruct (btw <=? bioOff) eqn:Hle; lia. }
    rewrite Ho, Hwr, Hi1, Hb1, Hf1. reflexivity.
  - destruct (0 <? bioOff) eqn:Hpos; [lia|].
    assert (Hwr : (if 512 >=? btw then btw else 512) = w).
    { rewrite Z.geb_leb. destruct (btw <=? 512) eqn:Hle; lia. }
    rewrite Hwr, Hi1, Hb1, Hf1, Hoff.
    replace off with 0 by lia. reflexivity.
Qed.

(** The loop writes what is left of [buf] to the file, from the cursor on,
    and keeps every other byte the file had. *)
Lemma fsWrite_loop_spec (inum c numb : Z) (buf : list byte) :
  0 <= c -> 0 <= numb -> c + numb < 2 ^ 31 ->
  numb <= Z.of_nat (length buf) ->
  forall (n : nat) (i btw bioOff bufOff : Z) (st st' : FS) (ino : Inode),
  WF st inum ino ->
  0 <= bufOff -> 0 <= btw -> bufOff + btw = numb ->
  (0 < btw ->
   i = (c + bufOff) / BYTESPERBLOCK
   /\ (bioOff = BYTESPERBLOCK - (c + bufOff) mod BYTESPERBLOCK
       \/ (bioOff = 0 /\ (c + bufOff) mod BYTESPERBLOCK = 0))) ->
  (0 < btw -> (c + numb - 1) / BYTESPERBLOCK < i + Z.of_nat n) ->
  fsWrite_loop n inum buf i btw bioOff bufOff st = Ok tt st' ->
  exists ino',
    WF st' inum ino'
    /\ isize ino' = isize ino
    /\ g_oft st' = g_oft st
    /\ (forall j, j <> inum -> inode_at j st' = inode_at j st)
    /\ (forall p v, 0 <= p -> ~ (c + bufOff <= p < c + numb) ->
          file_byte st inum p = Some v -> file_byte st' inum p = Some v)
    /\ (forall k, bufOff <= k < numb ->
          file_byte st' inum (c + k) = buf !! Z.to_nat k).
Proof.
  intros Hc Hnumb Hmax Hbuf.
  assert (Hdone : forall (st : FS) (ino : Inode) (bufOff : Z),
    WF st inum ino -> bufOff = numb ->
    exists ino',
      WF st inum ino' /\ isize ino' = isize ino /\ g_oft st = g_oft st
      /\ (forall j, j <> inum -> inode_at j st = inode_at j st)
      /\ (forall p v, 0 <= p -> ~ (c + bufOff <= p < c + numb) ->
            file_byte st inum p = Some v -> file_byte st inum p = Some v)
      /\ (forall k, bufOff <= k < numb ->
            file_byte st inum (c + k) = buf !! Z.to_nat k)).
  { intros st ino bufOff Hwf ->. exists ino. repeat split; auto; try apply Hwf.
    intros k Hk. lia. }
  induction n as [|n IH]; intros i btw bioOff bufOff st st' ino
    Hwf Hbo Hbtw Hsum Hinv Hfuel Hrun.
  - injection Hrun as <-.
    destruct (Z_lt_dec 0 btw) as [Hpos|Hzero];
      [|apply Hdone; [assumption|lia]].
    exfalso. destruct (Hinv Hpos) as [Hi _]. specialize (Hfuel Hpos).
    assert ((c + bufOff) / BYTESPERBLOCK <= (c + numb - 1) / BYTESPERBLOCK).
    { apply Z.div_le_mono; unfold BYTESPERBLOCK; lia. }
    lia.
  - destruct (Z_lt_dec 0 btw) as [Hpos|Hzero].
    2:{ assert (btw = 0) by lia. subst btw. cbn [fsWrite_loop] in Hrun.
        injection Hrun as <-. apply Hdone; [assumption|lia]. }
    destruct (Hinv Hpos) as [Hi Hoff]. specialize (Hfuel Hpos).
    rewrite (fsWrite_loop_step n inum buf c numb) in Hrun by assumption.
    destruct (block_bounds (c + bufOff) ltac:(lia)) as (Hd & Hm & Hdm).
    set (off := (c + bufOff) mod BYTESPERBLOCK) in *.
    set (w := Z.min btw (BYTESPERBLOCK - off)) in *.
    assert (Hw : 0 < w <= btw /\ w <= BYTESPERBLOCK - off) by lia.
    apply bind_Ok in Hrun as (dbn & st1 & Hres & Hrun).
    apply bind_Ok in Hrun as (bio & st2 & Hrd & Hrun).
    apply bind_Ok in Hrun as (bio' & st3 & Hcp & Hrun).
    apply bind_Ok in Hrun as ([] & st4 & Hwr & Hrun).
    destruct (write_block_spec st st1 st2 st3 st4 inum i off w dbn
                (drop (Z.to_nat bufOff) buf) bio bio' ino)
      as (ino4 & Hwf4 & Hsz4 & Hoft4 & Hoth4 & Hframe4 & Hnew4);
      try assumption; try lia.
    { rewrite length_drop. lia. }
    destruct (IH (i + 1) (btw - w) 0 (bufOff + w) st4 st' ino4)
      as (ino' & Hwf' & Hsz' & Hoft' & Hoth' & Hframe' & Hnew');
      try assumption; try lia.
    { intros Hmore.
      assert (Hnext : (c + (bufOff + w)) / BYTESPERBLOCK = i + 1
                      /\ (c + (bufOff + w)) mod BYTESPERBLOCK = 0).
      { apply block_div_mod; unfold BYTESPERBLOCK in *; lia. }
      destruct Hnext as [Hn1 Hn2]. split; [symmetry; exact Hn1|].
      right. split; [reflexivity|exact Hn2]. }
    exists ino'. split; [assumption|]. split; [congruence|].
    split; [congruence|]. split.
    { intros j Hj. rewrite Hoth', Hoth4; auto. }
    assert (Hrange : forall p, 0 <= p ->
      (p / BYTESPERBLOCK = i
       /\ off <= p mod BYTESPERBLOCK < off + w)
      <-> c + bufOff <= p < c + bufOff + w).
    { intros p Hp.
      destruct (block_bounds p Hp) as (Hpd & Hpm & Hpdm).
      unfold BYTESPERBLOCK in *. split; intros Hx.
      - destruct Hx as [Hx1 Hx2]. rewrite Hx1 in Hpdm. lia.
      - assert (Hblk : p / 512 = i /\ p mod 512 = p - 512 * i).
        { apply (block_div_mod p i (p - 512 * i)); unfold BYTESPERBLOCK; lia. }
        lia. }
    split.
    + intros p v Hp Hout Hv. apply Hframe'; [assumption|lia|].
      apply Hframe4; [assumption| |assumption].
      rewrite (Hrange p Hp). lia.
    + intros k Hk. destruct (Z_lt_dec k (bufOff + w)) as [Hin|Hlater].
      * assert (Hlk : is_Some (buf !! Z.to_nat k))
          by (apply lookup_lt_is_Some_2; lia).
        destruct Hlk as [b Hb]. rewrite Hb.
        apply Hframe'; [lia|lia|].
        assert (Hp : 0 <= c + k) by lia.
        destruct (proj2 (Hrange (c + k) Hp) ltac:(lia)) as [Hx1 Hx2].
        rewrite Hnew4 by assumption.
        rewrite lookup_drop. rewrite <- Hb. f_equal.
        destruct (block_bounds (c + k) Hp) as (Hpd & Hpm & Hpdm).
        rewrite Hx1 in Hpdm. unfold BYTESPERBLOCK in *. lia.
      * apply Hnew'. lia.
Qed.

(** ** [fsWrite] *)

Lemma wrap32_sub_l (x y : Z) : wrap32 (wrap32 x - y) = wrap32 (x - y).
Proof.
  unfold wrap32. f_equal.
  replace ((x + 2 ^ 31) mod 2 ^ 32 - 2 ^ 31 - y + 2 ^ 31)
    with ((x + 2 ^ 31) mod 2 ^ 32 - y) by lia.
  rewrite Zminus_mod_idemp_l. f_equal. lia.
Qed.

Lemma open_cursor_oft (st st' : FS) (inum : Z) :
  g_oft st' = g_oft st -> open_cursor st' inum = open_cursor st inum.
Proof. unfold open_cursor. intros ->. reflexivity. Qed.

Lemma WF_with_cursor (st : FS) (inum j c : Z) (ino : Inode) :
  WF st inum ino -> WF (with_cursor j c st) inum ino.
Proof.
  intros [Hino Hnd Hused Hsized].
  destruct (with_cursor_frame st j c) as (Hi & Hf & Hd & _).
  split; unfold inode_at; rewrite ?Hi, ?Hf, ?Hd; assumption.
Qed.

Lemma inode_at_with_cursor (st : FS) (inum j c : Z) :
  inode_at inum (with_cursor j c st) = inode_at inum st.
Proof.
  unfold inode_at. destruct (with_cursor_frame st j c) as (-> & _).
  reflexivity.
Qed.

Lemma file_byte_with_cursor (st : FS) (inum j c p : Z) :
  file_byte (with_cursor j c st) inum p = file_byte st inum p.
Proof.
  unfold file_byte. rewrite inode_at_with_cursor.
  destruct (with_cursor_frame st j c) as (_ & _ & -> & _). reflexivity.
Qed.

Section Write.

Context {descriptors : Descriptors}.

(** What a successful [fsWrite] does to a well-formed open file. *)
Lemma fsWrite_spec (fd numb : Z) (buf : list byte) (st st' : FS)
    (c r : Z) (ino : Inode) :
  open_cursor st (bfsFdToInum fd) = Some c ->
  WF st (bfsFdToInum fd) ino ->
  0 <= c -> 0 <= numb -> c + numb < 2 ^ 31 ->
  numb <= Z.of_nat (length buf) ->
  fsWrite fd numb buf st = Ok r st' ->
  r = 0
  /\ open_cursor st' (bfsFdToInum fd) = Some (c + numb)
  /\ exists ino',
       WF st' (bfsFdToInum fd) ino'
       /\ isize ino' = isize ino
       /\ (forall j, j <> bfsFdToInum fd -> inode_at j st' = inode_at j st)
       /\ (forall p v, 0 <= p -> ~ (c <= p < c + numb) ->
             file_byte st (bfsFdToInum fd) p = Some v ->
             file_byte st' (bfsFdToInum fd) p = Some v)
       /\ (forall k, 0 <= k < numb ->
             file_byte st' (bfsFdToInum fd) (c + k) = buf !! Z.to_nat k).
Proof.
  intros Hopen Hwf Hc Hnumb Hmax Hbuf Hrun.
  unfold fsWrite in Hrun.
  rewrite (bind_eq _ _ _ _ _ (bfsTell_open _ _ _ Hopen)) in Hrun.
  cbv zeta in Hrun.
  destruct (block_bounds c Hc) as (Hd & Hm & Hdm).
  destruct (block_bounds (c + numb) ltac:(lia)) as (Hd' & Hm' & Hdm').
  assert (Hmono : c / BYTESPERBLOCK <= (c + numb) / BYTESPERBLOCK)
    by (apply Z.div_le_mono; unfold BYTESPERBLOCK; lia).
  assert (Hlast : (c + numb - 1) / BYTESPERBLOCK
                  <= (c + numb) / BYTESPERBLOCK)
    by (apply Z.div_le_mono; unfold BYTESPERBLOCK; lia).
  rewrite (add32_id c numb) in Hrun by (unfold in_i32; lia).
  rewrite !div32_block in Hrun by lia.
  assert (Hbio :
    sub32 (mul32 (add32 (c / BYTESPERBLOCK) 1) BYTESPERBLOCK) c
    = BYTESPERBLOCK - c mod BYTESPERBLOCK).
  { rewrite add32_id by (unfold in_i32, BYTESPERBLOCK in *; lia).
    unfold sub32, mul32. rewrite wrap32_sub_l.
    rewrite wrap32_id; unfold in_i32, BYTESPERBLOCK in *; lia. }
  rewrite Hbio in Hrun.
  apply bind_Ok in Hrun as ([] & st1 & Hloop & Hrun).
  destruct (fsWrite_loop_spec (bfsFdToInum fd) c numb buf Hc Hnumb Hmax Hbuf
              (Z.to_nat ((c + numb) / BYTESPERBLOCK - c / BYTESPERBLOCK + 1))
              (c / BYTESPERBLOCK) numb
              (BYTESPERBLOCK - c mod BYTESPERBLOCK) 0 st st1 ino)
    as (ino1 & Hwf1 & Hsz1 & Hoft1 & Hoth1 & Hframe1 & Hnew1);
    try assumption; try lia.
  { rewrite Z.add_0_r. auto. }
  assert (Hopen1 : open_cursor st1 (bfsFdToInum fd) = Some c)
    by (rewrite (open_cursor_oft _ _ _ Hoft1); assumption).
  rewrite (bind_eq _ _ _ _ _ (bfsSetCursor_open _ _ _ (c + numb) Hopen1))
    in Hrun.
  injection Hrun as <- <-.
  split; [reflexivity|]. split.
  { apply (open_cursor_with_cursor _ _ c). assumption. }
  exists ino1. split; [apply WF_with_cursor; assumption|].
  split; [assumption|]. split.
  { intros j Hj. rewrite inode_at_with_cursor. auto. }
  split.
  - intros p v Hp Hout Hv. rewrite file_byte_with_cursor.
    apply Hframe1; [assumption|lia|assumption].
  - intros k Hk. rewrite file_byte_with_cursor. apply Hnew1. assumption.
Qed.

(** What a successful [fsWrite] on an open, well-formed file achieves: all
    [numb] bytes of the buffer are in the blocks of the file, from the cursor
    on (the blocks they need being resolved on the way), the call returns 0,
    and the cursor is at its value before the call plus [numb].  The logical
    size is not part of it: see [fsWrite_size_unchanged]. *)
Theorem fsWrite_writes_all (fd numb : Z) (buf : list byte) (st st' : FS)
    (c r : Z) :
  open_cursor st (bfsFdToInum fd) = Some c ->
  wf_file st (bfsFdToInum fd) = true ->
  0 <= c -> 0 <= numb -> c + numb < 2 ^ 31 ->
  numb <= Z.of_nat (length buf) ->
  fsWrite fd numb buf st = Ok r st' ->
  r = 0
  /\ fsTell fd st' = Ok (c + numb) st'
  /\ (forall k, 0 <= k < numb ->
        file_byte st' (bfsFdToInum fd) (c + k) = buf !! Z.to_nat k)
  /\ wf_file st' (bfsFdToInum fd) = true.
Proof.
  intros Hopen Hwf Hc Hnumb Hmax Hbuf Hrun.
  apply wf_file_WF in Hwf as [ino Hwf].
  destruct (fsWrite_spec _ _ _ _ _ _ _ _ Hopen Hwf Hc Hnumb Hmax Hbuf Hrun)
    as (Hr & Hcur & ino' & Hwf' & _ & _ & _ & Hnew).
  split; [assumption|]. split; [apply bfsTell_open; assumption|].
  split; [assumption|]. apply (WF_wf_file _ _ ino'). assumption.
Qed.

(** C10.  On an open descriptor, [fsWrite] of 0 bytes returns 0 and leaves
    the whole state as it was: the cursor, the inodes, the free list and the
    disk, and the trace, so that no block was resolved, read or written. *)
Theorem fsWrite_zero_bytes (fd : Z) (buf : list byte) (st : FS) (c : Z) :
  open_cursor st (bfsFdToInum fd) = Some c ->
  in_i32 c ->
  fsWrite fd 0 buf st = Ok 0 st.
Proof.
  intros Hopen Hc. unfold fsWrite.
  rewrite (bind_eq _ _ _ _ _ (bfsTell_open _ _ _ Hopen)). cbv zeta.
  rewrite (add32_id c 0) by (rewrite Z.add_0_r; assumption).
  rewrite Z.add_0_r.
  replace (Z.to_nat (div32 c BYTESPERBLOCK - div32 c BYTESPERBLOCK + 1))
    with 1%nat by lia.
  unfold bind at 1. cbn [fsWrite_loop]. cbn [Z.eqb ret].
  rewrite (bind_eq _ _ _ _ _ (bfsSetCursor_open _ _ _ c Hopen)).
  rewrite (with_cursor_same _ _ _ Hopen). reflexivity.
Qed.

(** A successful [fsWrite] never changes the logical size of the file,
    wherever the cursor is and however many bytes are written: [fsSize]
    gives after the call what it gave before. *)
Lemma fsWrite_size_unchanged (fd numb : Z) (buf : list byte) (st st' : FS)
    (c r s : Z) :
  open_cursor st (bfsFdToInum fd) = Some c ->
  wf_file st (bfsFdToInum fd) = true ->
  size_of st (bfsFdToInum fd) = Some s ->
  0 <= c -> 0 <= numb -> c + numb < 2 ^ 31 ->
  numb <= Z.of_nat (length buf) ->
  fsWrite fd numb buf st = Ok r st' ->
  fsSize fd st = Ok s st /\ fsSize fd st' = Ok s st'.
Proof.
  intros Hopen Hwf Hsize Hc Hnumb Hmax Hbuf Hrun.
  apply wf_file_WF in Hwf as [ino Hwf].
  destruct (fsWrite_spec _ _ _ _ _ _ _ _ Hopen Hwf Hc Hnumb Hmax Hbuf Hrun)
    as (_ & _ & ino' & Hwf' & Hsz & _).
  unfold fsSize. split; [apply bfsGetSize_size_of; assumption|].
  apply bfsGetSize_size_of. unfold size_of in *.
  destruct Hwf as [Hino _ _ _]. destruct Hwf' as [Hino' _ _ _].
  rewrite Hino in Hsize. rewrite Hino'. simpl in *. congruence.
Qed.

End Write.

(** ** [fsRead] *)

Lemma bfsFbnToDbn_trace (st st1 : FS) (inum fbn dbn : Z) :
  bfsFbnToDbn inum fbn st = Ok dbn st1 ->
  trace st1 = trace st ++ [EvFbnToDbn inum fbn dbn].
Proof.
  unfold bfsFbnToDbn. destruct (inode_at inum st) as [ino|]; [|discriminate].
  destruct (fbn <? 0); [discriminate|].
  destruct (iblocks ino !! Z.to_nat fbn) as [d|].
  - intros [= <- <-]. reflexivity.
  - destruct (fbn =? Z.of_nat (length (iblocks ino))); [|discriminate].
    unfold bind, bfsAllocBlock.
    destruct (find_index negb (freelist st)); [|discriminate].
    simpl. intros [= <- <-]. reflexivity.
Qed.

Lemma bioRead_trace (st st1 : FS) (dbn : Z) (bio : list byte) :
  bioRead dbn st = Ok bio st1 -> trace st1 = trace st ++ [EvBioRead dbn].
Proof.
  unfold bioRead. destruct (dbn <? 0); [discriminate|].
  destruct (disk st !! Z.to_nat dbn); [|discriminate].
  intros [= _ <-]. reflexivity.
Qed.

Lemma bfsSetCursor_trace (st st1 : FS) (inum c r : Z) :
  bfsSetCursor inum c st = Ok r st1 -> trace st1 = trace st.
Proof.
  unfold bfsSetCursor, bind, bfsFindOFTE, store_curs, modify, ret.
  destruct (find_index (ofte_matches inum) (g_oft st)).
  - intros [= _ <-]. reflexivity.
  - destruct (find_index ofte_free (g_oft st)); [|discriminate].
    intros [= _ <-]. reflexivity.
Qed.

Lemma rem32_wrap32_aligned (x : Z) :
  x mod BYTESPERBLOCK = 0 -> rem32 (wrap32 x) BYTESPERBLOCK = 0.
Proof.
  unfold rem32, BYTESPERBLOCK. intros Hx.
  apply Z.rem_divide; [lia|].
  apply Z.mod_divide in Hx; [|lia].
  unfold wrap32.
  rewrite (Z.mod_eq (x + 2 ^ 31) (2 ^ 32)) by lia.
  replace (x + 2 ^ 31 - 2 ^ 32 * ((x + 2 ^ 31) / 2 ^ 32) - 2 ^ 31)
    with (x - 512 * (8388608 * ((x + 2 ^ 31) / 2 ^ 32))) by lia.
  apply Z.divide_sub_r; [assumption|]. apply Z.divide_factor_l.
Qed.

(** One iteration of the loop of [fsRead] that returns. *)
Lemma fsRead_loop_iter (n : nat) (inum numb fbnStart fbnEnd : Z)
    (fbn cursor rb : Z) (buf : list byte) (st st' : FS)
    (res : Z * list byte) :
  fsRead_loop (S n) inum numb fbnStart fbnEnd fbn cursor rb buf st
  = Ok res st' ->
  let offset := if fbn =? fbnStart then rem32 cursor BYTESPERBLOCK else 0 in
  let btr := if fbn =? fbnEnd
             then sub32 (rem32 (add32 cursor numb) BYTESPERBLOCK) offset
             else sub32 BYTESPERBLOCK offset in
  exists dbn st1 bio st2 st4,
    bfsFbnToDbn inum fbn st = Ok dbn st1
    /\ bioRead dbn st1 = Ok bio st2
    /\ trace st4 = trace st ++ [EvFbnToDbn inum fbn dbn; EvBioRead dbn;
                                 EvMemcpy btr]
    /\ fsRead_loop n inum numb fbnStart fbnEnd (add32 fbn 1)
         (add32 cursor btr) (add32 rb btr)
         (memcpy buf rb (drop (Z.to_nat offset) bio) btr) st4
       = Ok res st'.
Proof.
  intros Hrun. cbn [fsRead_loop] in Hrun. cbv zeta in *.
  apply bind_Ok in Hrun as (dbn & st1 & Hres & Hrun).
  apply bind_Ok in Hrun as (bio & st2 & Hrd & Hrun).
  apply bind_Ok in Hrun as (buf' & st3 & Hcp & Hrun).
  apply bind_Ok in Hrun as (r & st4 & Hset & Hrun).
  unfold do_memcpy, bind, modify, ret in Hcp. injection Hcp as <- <-.
  exists dbn, st1, bio, st2, st4.
  split; [assumption|]. split; [assumption|]. split; [|exact Hrun].
  rewrite (bfsSetCursor_trace _ _ _ _ _ Hset). cbn [trace log_event].
  rewrite (bioRead_trace _ _ _ _ Hrd), (bfsFbnToDbn_trace _ _ _ _ _ Hres).
  rewrite <- !app_assoc. reflexivity.
Qed.

(** When the loop runs over more than one block, it ends with the block
    [fbnEnd]: the last calls it makes resolve and read that block and copy
    from it. *)
Lemma fsRead_loop_last (inum numb c fbnEnd : Z) :
  0 <= c -> c / BYTESPERBLOCK < fbnEnd ->
  fbnEnd * BYTESPERBLOCK < 2 ^ 31 ->
  forall (n : nat) (fbn cursor rb : Z) (buf : list byte) (st st' : FS)
         (res : Z * list byte),
  (1 <= n)%nat -> fbn + Z.of_nat n = fbnEnd + 1 ->
  (fbn = c / BYTESPERBLOCK /\ cursor = c)
  \/ (c / BYTESPERBLOCK < fbn /\ cursor = fbn * BYTESPERBLOCK) ->
  fsRead_loop n inum numb (c / BYTESPERBLOCK) fbnEnd fbn cursor rb buf st
  = Ok res st' ->
  exists pre dbn,
    trace st'
    = pre ++ [EvFbnToDbn inum fbnEnd dbn; EvBioRead dbn;
              EvMemcpy (sub32 (rem32 (add32 (fbnEnd * BYTESPERBLOCK) numb)
                                     BYTESPERBLOCK) 0)].
Proof.
  intros Hc Hmany Hmax.
  destruct (block_bounds c Hc) as (Hd & Hm & Hdm).
  induction n as [|n IH];
    intros fbn cursor rb buf st st' res Hn Hfuel Hinv Hrun; [lia|].
  apply fsRead_loop_iter in Hrun
    as (dbn & st1 & bio & st2 & st4 & Hres & Hrd & Htr & Hrun).
  destruct n as [|n].
  - assert (fbn = fbnEnd) by lia. subst fbn.
    destruct Hinv as [[Hx _]|[_ ->]]; [lia|].
    cbn [fsRead_loop] in Hrun. injection Hrun as _ <-.
    exists (trace st), dbn. rewrite Htr.
    destruct (fbnEnd =? c / BYTESPERBLOCK) eqn:E1; [lia|].
    rewrite Z.eqb_refl. reflexivity.
  - assert (Hlt : fbn < fbnEnd) by lia.
    destruct (fbn =? fbnEnd) eqn:E2; [lia|].
    assert (Hnext : add32 fbn 1 = fbn + 1).
    { apply add32_id. unfold in_i32, BYTESPERBLOCK in *. lia. }
    rewrite Hnext in Hrun.
    apply IH in Hrun; [exact Hrun|lia|lia|].
    right. split; [lia|].
    destruct Hinv as [[-> ->]|[Hgt ->]].
    + rewrite Z.eqb_refl, rem32_block by assumption.
      rewrite sub32_id by (unfold in_i32, BYTESPERBLOCK in *; lia).
      rewrite add32_id by (unfold in_i32, BYTESPERBLOCK in *; lia).
      unfold BYTESPERBLOCK in *. lia.
    + destruct (fbn =? c / BYTESPERBLOCK) eqn:E1; [lia|].
      rewrite sub32_id by (unfold in_i32, BYTESPERBLOCK in *; lia).
      rewrite add32_id by (unfold in_i32, BYTESPERBLOCK in *; lia).
      unfold BYTESPERBLOCK in *. lia.
Qed.

Section Read.

Context {descriptors : Descriptors}.

(** The block past the range.  A read of [numb > 0] bytes whose range ends
    on a block boundary ends, when it returns, by resolving the file block
    [(cursor + numb) / BYTESPERBLOCK], one block past the last byte of the
    range, and reading that physical block; when the cursor is on a block
    boundary too, it copies zero bytes from it. *)
Lemma fsRead_block_past_range (fd numb : Z) (buf out : list byte)
    (st st' : FS) (c r : Z) :
  open_cursor st (bfsFdToInum fd) = Some c ->
  0 <= c -> 0 < numb -> c + numb < 2 ^ 31 ->
  (c + numb) mod BYTESPERBLOCK = 0 ->
  fsRead fd numb buf st = Ok (r, out) st' ->
  (c + numb - 1) / BYTESPERBLOCK = (c + numb) / BYTESPERBLOCK - 1
  /\ exists pre dbn m,
       trace st'
       = pre ++ [EvFbnToDbn (bfsFdToInum fd)
                   ((c + numb) / BYTESPERBLOCK) dbn;
                 EvBioRead dbn; EvMemcpy m]
       /\ (c mod BYTESPERBLOCK = 0 -> m = 0).
Proof.
  intros Hopen Hc Hnumb Hmax Hal Hrun.
  destruct (block_bounds c Hc) as (Hd & Hm & Hdm).
  destruct (block_bounds (c + numb) ltac:(lia)) as (Hd' & Hm' & Hdm').
  rewrite Hal in Hdm'.
  assert (Hprev : (c + numb - 1) / BYTESPERBLOCK
                  = (c + numb) / BYTESPERBLOCK - 1
                  /\ (c + numb - 1) mod BYTESPERBLOCK = BYTESPERBLOCK - 1).
  { apply block_div_mod; unfold BYTESPERBLOCK in *; lia. }
  split; [apply Hprev|].
  unfold fsRead in Hrun.
  rewrite (bind_eq _ _ _ _ _ (bfsTell_open _ _ _ Hopen)) in Hrun.
  unfold fsRead_at in Hrun.
  rewrite (add32_id c numb) in Hrun by (unfold in_i32; lia).
  rewrite !div32_block in Hrun by lia.
  assert (Hmany : c / BYTESPERBLOCK < (c + numb) / BYTESPERBLOCK)
    by (unfold BYTESPERBLOCK in *; lia).
  apply (fsRead_loop_last (bfsFdToInum fd) numb c
           ((c + numb) / BYTESPERBLOCK)) in Hrun;
    try assumption; try (unfold BYTESPERBLOCK in *; lia).
  destruct Hrun as (pre & dbn & Htr).
  exists pre, dbn. eexists. split; [exact Htr|].
  intros Hstart. unfold add32.
  rewrite rem32_wrap32_aligned; [reflexivity|].
  replace ((c + numb) / BYTESPERBLOCK * BYTESPERBLOCK + numb)
    with ((2 * ((c + numb) / BYTESPERBLOCK) - c / BYTESPERBLOCK)
          * BYTESPERBLOCK)
    by (unfold BYTESPERBLOCK in *; lia).
  apply Z.mod_mul. unfold BYTESPERBLOCK. lia.
Qed.

End Read.

(** ** The defects of [fsRead] and of the size, on the example disk *)

(** C1, the failing input.  520 bytes are written at cursor 10 of an empty
    file, the cursor is set back to 10 and 520 bytes are read into a buffer
    of zeroes: [fsRead] returns 510 and leaves the last 10 bytes of the
    buffer as they were, so that the bytes read are not the bytes written.
    The last iteration of the loop computes its count from the cursor that
    the preceding iterations advanced. *)
Theorem write_then_read_loses_bytes :
  value_of ((do _ <- @fsWrite ex_fds 2 520 (repeat x41 520%nat);
             do _ <- @fsSeek ex_fds 2 10 SEEK_SET;
             @fsRead ex_fds 2 520 (repeat x00 520%nat)) (ex_state 10))
  = Some (510, repeat x41 510%nat ++ repeat x00 10%nat).
Proof. vm_compute. reflexivity. Qed.

(** C2, the failing inputs.  On a file of 2000 bytes, a read of 100 bytes at
    cursor 500 returns 112, more than was asked for, and a read of 520 bytes
    at cursor 10 returns 510, fewer than was asked for although the range
    ends at byte 530, far from the end of the file. *)
Theorem fsRead_count_wrong :
  size_of (ex_state_2000 500) (ex_fds 2) = Some 2000
  /\ fst <$> value_of (@fsRead ex_fds 2 100 (repeat x00 100%nat)
                         (ex_state_2000 500)) = Some 112
  /\ fst <$> value_of (@fsRead ex_fds 2 520 (repeat x00 520%nat)
                         (ex_state_2000 10)) = Some 510.
Proof. vm_compute. repeat split; reflexivity. Qed.

(** C9, the failing input.  A read of 12 bytes at cursor 500 ends on the
    block boundary 512; its last iteration resolves and reads file block 1,
    one block past the range, and copies 12 bytes from it, not zero: the
    trace of the call does not end with a copy of zero bytes. *)
Theorem fsRead_boundary_copies_bytes :
  trace_of (@fsRead ex_fds 2 12 (repeat x00 12%nat) (ex_state_2000 500))
  = Some [EvFbnToDbn 1 0 2; EvBioRead 2; EvMemcpy 12;
          EvFbnToDbn 1 1 3; EvBioRead 3; EvMemcpy 12]
  /\ ~ (exists pre dbn,
          trace_of (@fsRead ex_fds 2 12 (repeat x00 12%nat)
                      (ex_state_2000 500))
          = Some (pre ++ [EvFbnToDbn 1 1 dbn; EvBioRead dbn; EvMemcpy 0])).
Proof.
  assert (H : trace_of (@fsRead ex_fds 2 12 (repeat x00 12%nat)
                          (ex_state_2000 500))
              = Some [EvFbnToDbn 1 0 2; EvBioRead 2; EvMemcpy 12;
                      EvFbnToDbn 1 1 3; EvBioRead 3; EvMemcpy 12])
    by (vm_compute; reflexivity).
  split; [exact H|].
  intros (pre & dbn & H'). rewrite H in H'. injection H' as H'.
  apply (f_equal (@last event)) in H'.
  change (pre ++ [EvFbnToDbn 1 1 dbn; EvBioRead dbn; EvMemcpy 0])
    with (pre ++ [EvFbnToDbn 1 1 dbn; EvBioRead dbn] ++ [EvMemcpy 0]) in H'.
  rewrite app_assoc, last_snoc in H'. discriminate.
Qed.

(** C4, the failing input.  An empty file (size 0) is open with its cursor
    at 0, the end of the file.  After a successful [fsWrite] of 100 bytes the
    cursor is at 100 and the bytes are in the file, but [fsSize] still
    returns 0, not 100. *)
Theorem fsWrite_at_end_keeps_size :
  let st' := state_of (@fsWrite ex_fds 2 100 (repeat x41 100%nat)
                         (ex_state 0)) (ex_state 0) in
  @fsSize ex_fds 2 (ex_state 0) = Ok 0 (ex_state 0)
  /\ value_of (@fsWrite ex_fds 2 100 (repeat x41 100%nat) (ex_state 0))
     = Some 0
  /\ @fsTell ex_fds 2 st' = Ok 100 st'
  /\ file_byte st' 1 99 = Some x41
  /\ @fsSize ex_fds 2 st' = Ok 0 st'.
Proof.
  intros st'.
  destruct (@fsWrite_size_unchanged ex_fds 2 100 (repeat x41 100%nat)
              (ex_state 0) st' 0 0 0) as [H0 H1];
    [reflexivity|reflexivity|reflexivity|lia|lia|reflexivity|simpl; lia
    |vm_compute; reflexivity|].
  split; [exact H0|]. split; [vm_compute; reflexivity|].
  split; [vm_compute; reflexivity|]. split; [vm_compute; reflexivity|].
  exact H1.
Qed.

(** C3, the failing input.  A file of 1000 bytes in two blocks is open with
    its cursor at 1000, the end of the file.  A successful [fsWrite] of 100
    bytes puts all of them into the blocks of the file, allocating the third
    block they need, and leaves the cursor at 1100; but the file is not
    extended: its logical size is still 1000, so that the bytes written lie
    beyond the end of the file. *)
Theorem fsWrite_does_not_extend :
  let st := ex_state_two 1000 in
  let st' := state_of (@fsWrite ex_fds 2 100 (repeat x41 100%nat) st) st in
  @fsSize ex_fds 2 st = Ok 1000 st
  /\ value_of (@fsWrite ex_fds 2 100 (repeat x41 100%nat) st) = Some 0
  /\ @fsTell ex_fds 2 st' = Ok 1100 st'
  /\ (forall k, 0 <= k < 100 ->
        file_byte st' 1 (1000 + k) = repeat x41 100%nat !! Z.to_nat k)
  /\ file_byte st' 1 1099 = Some x41
  /\ inode_at 1 st = Some (mkInode 1000 [2; 3])
  /\ inode_at 1 st' = Some (mkInode 1000 [2; 3; 5])
  /\ @fsSize ex_fds 2 st' = Ok 1000 st'.
Proof.
  intros st st'.
  destruct (@fsWrite_writes_all ex_fds 2 100 (repeat x41 100%nat)
              st st' 1000 0) as (_ & Htell & Hbytes & _);
    [reflexivity|reflexivity|lia|lia|reflexivity|simpl; lia
    |vm_compute; reflexivity|].
  split; [reflexivity|]. split; [vm_compute; reflexivity|].
  split; [exact Htell|]. split; [exact Hbytes|].
  split; [vm_compute; reflexivity|].
  split; [reflexivity|]. split; vm_compute; reflexivity.
Qed.

(** C5, counterexample.  With the cursor at 500, [fsSeek(fd, -1, SEEK_CUR)]
    does not add the offset to the cursor: it aborts with [EBADCURS]. *)
Lemma fsSeek_cur_negative_counterexample :
  open_cursor (ex_state_2000 500) (ex_fds 2) = Some 500
  /\ @fsSeek ex_fds 2 (-1) SEEK_CUR (ex_state_2000 500) = Fatal EBADCURS
  /\ @fsSeek ex_fds 2 (-1) SEEK_END (ex_state_2000 500) = Fatal EBADCURS
  /\ ~ (exists st', @fsSeek ex_fds 2 (-1) SEEK_CUR (ex_state_2000 500)
                    = Ok 0 st').
Proof.
  repeat split; try reflexivity.
  intros (st' & H). discriminate.
Qed.

(** ** The theorems at work on the example disk *)

(** 100 bytes written at cursor 500 of an empty file: they span two blocks
    that the write allocates. *)
Lemma fsWrite_writes_all_witness :
  let st' := state_of (@fsWrite ex_fds 2 100 (repeat x41 100%nat)
                         (ex_state 500)) (ex_state 500) in
  @fsTell ex_fds 2 st' = Ok 600 st'
  /\ forall k, 0 <= k < 100 ->
       file_byte st' 1 (500 + k) = repeat x41 100%nat !! Z.to_nat k.
Proof.
  intros st'.
  destruct (@fsWrite_writes_all ex_fds 2 100 (repeat x41 100%nat)
              (ex_state 500) st' 500 0) as (_ & H1 & H2 & _).
  - reflexivity.
  - reflexivity.
  - lia.
  - lia.
  - reflexivity.
  - simpl. lia.
  - vm_compute. reflexivity.
  - split; assumption.
Defined.

(** A write of zero bytes at cursor 500. *)
Lemma fsWrite_zero_bytes_witness :
  @fsWrite ex_fds 2 0 [] (ex_state 500) = Ok 0 (ex_state 500).
Proof.
  apply (@fsWrite_zero_bytes ex_fds 2 [] (ex_state 500) 500).
  - reflexivity.
  - unfold in_i32. lia.
Defined.

(** Seeking in a file of 2000 bytes with the cursor at 500. *)
Lemma fsSeek_semantics_witness :
  @fsSeek ex_fds 2 7 SEEK_SET (ex_state_2000 500)
  = Ok 0 (with_cursor 1 7 (ex_state_2000 500))
  /\ @fsSeek ex_fds 2 7 SEEK_CUR (ex_state_2000 500)
     = Ok 0 (with_cursor 1 507 (ex_state_2000 500))
  /\ @fsSeek ex_fds 2 7 SEEK_END (ex_state_2000 500)
     = Ok 0 (with_cursor 1 2007 (ex_state_2000 500))
  /\ @fsSeek ex_fds 2 (-1) SEEK_SET (ex_state_2000 500) = Fatal EBADCURS.
Proof.
  destruct (@fsSeek_semantics ex_fds 2 7 (ex_state_2000 500) 500 2000)
    as (_ & Hset & Hcur & Hend & _).
  - reflexivity.
  - reflexivity.
  - unfold in_i32. lia.
  - destruct (@fsSeek_semantics ex_fds 2 (-1) (ex_state_2000 500) 500 2000)
      as (Hneg & _).
    + reflexivity.
    + reflexivity.
    + unfold in_i32. lia.
    + split; [apply Hset; lia|].
      split; [apply Hcur; unfold in_i32; lia|].
      split; [apply Hend; unfold in_i32; lia|].
      apply Hneg. lia.
Defined.

(** Descriptor 2 resolves to inode 1, open twice with the cursor at 500:
    closing it once leaves one reference and the cursor, closing it twice
    reclaims the entry, and a third close, like the close of descriptor 9
    that was never opened, returns 0 and changes nothing. *)
Lemma fsClose_returns_zero_witness :
  @fsClose ex_fds 2 (ex_state 500)
  = Ok 0 (set_oft [mkOFTE 0 0 0; mkOFTE 1 500 1] (ex_state 500))
  /\ (do _ <- @fsClose ex_fds 2; @fsClose ex_fds 2) (ex_state 500)
     = Ok 0 (set_oft [mkOFTE 0 0 0; mkOFTE 1 0 0] (ex_state 500))
  /\ (do _ <- @fsClose ex_fds 2; do _ <- @fsClose ex_fds 2;
      @fsClose ex_fds 2) (ex_state 500)
     = Ok 0 (set_oft [mkOFTE 0 0 0; mkOFTE 1 0 0] (ex_state 500))
  /\ @fsClose ex_fds 9 (ex_state 500) = Ok 0 (ex_state 500).
Proof.
  destruct (@fsClose_returns_zero ex_fds 9 (ex_state 500))
    as (st' & Hrun & _ & _ & _ & _ & _ & _ & Hnone).
  rewrite (Hnone eq_refl) in Hrun.
  split; [reflexivity|]. split; [reflexivity|]. split; [reflexivity|].
  exact Hrun.
Defined.

(** A format that succeeds, and one whose inode table cannot be
    initialised. *)
Lemma fsFormat_behaviour_witness :
  (exists st', @fsFormat ex_env (ex_state 500) = Ok 0 st')
  /\ @fsFormat ex_env_bad (ex_state 500) = Fatal (ECODE 7).
Proof.
  split.
  - destruct (@fsFormat_behaviour ex_env (ex_state 500)) as (_ & H & _).
    eexists. apply H. split; [reflexivity|].
    do 4 eexists. repeat split; reflexivity.
  - destruct (@fsFormat_behaviour ex_env_bad (ex_state 500))
      as (_ & _ & _ & H & _).
    apply (H (ex_state 500) (ex_state 500) 7 (ex_state 500));
      [reflexivity|reflexivity|reflexivity|lia].
Defined.

(** A read of one whole block at cursor 0 resolves and reads block 1 as
    well, and copies nothing from it. *)
Lemma fsRead_block_past_range_example :
  exists pre dbn,
    trace (state_of (@fsRead ex_fds 2 512 (repeat x00 512%nat)
                       (ex_state_2000 0)) (ex_state_2000 0))
    = pre ++ [EvFbnToDbn 1 1 dbn; EvBioRead dbn; EvMemcpy 0].
Proof.
  destruct (@fsRead_block_past_range ex_fds 2 512 (repeat x00 512%nat)
              (repeat x00 512%nat) (ex_state_2000 0)
              (state_of (@fsRead ex_fds 2 512 (repeat x00 512%nat)
                           (ex_state_2000 0)) (ex_state_2000 0))
              0 512)
    as (_ & pre & dbn & m & Htr & Hm).
  - reflexivity.
  - lia.
  - lia.
  - reflexivity.
  - reflexivity.
  - vm_compute. reflexivity.
  - exists pre, dbn. rewrite Htr, Hm; reflexivity.
Defined.

(** * Further properties *)

(** ** What [fsRead] reads *)

Lemma lookup_memcpy_before (dst src : list byte) (off w q : Z) :
  0 <= q < off -> off <= Z.of_nat (length dst) ->
  memcpy dst off src w !! Z.to_nat q = dst !! Z.to_nat q.
Proof.
  intros Hq Hd. unfold memcpy.
  rewrite lookup_app_l by (rewrite length_take; lia).
  apply lookup_take_lt. lia.
Qed.

Lemma length_memcpy_ge (dst src : list byte) (off w : Z) :
  0 <= off -> 0 <= w ->
  off <= Z.of_nat (length dst) -> w <= Z.of_nat (length src) ->
  off + w <= Z.of_nat (length (memcpy dst off src w)).
Proof.
  intros Hoff Hw Hd Hs. unfold memcpy.
  rewrite !length_app, !length_take. lia.
Qed.

(** One iteration of the loop of [fsRead] that returns, call by call. *)
Lemma fsRead_loop_calls (n : nat) (inum numb fbnStart fbnEnd : Z)
    (fbn cursor rb : Z) (buf : list byte) (st st' : FS)
    (res : Z * list byte) :
  fsRead_loop (S n) inum numb fbnStart fbnEnd fbn cursor rb buf st
  = Ok res st' ->
  exists dbn st1 bio st2 x st4,
    bfsFbnToDbn inum fbn st = Ok dbn st1
    /\ bioRead dbn st1 = Ok bio st2
    /\ bfsSetCursor inum
         (add32 cursor
            (if fbn =? fbnEnd
             then sub32 (rem32 (add32 cursor numb) BYTESPERBLOCK)
                    (if fbn =? fbnStart
                     then rem32 cursor BYTESPERBLOCK else 0)
             else sub32 BYTESPERBLOCK
                    (if fbn =? fbnStart
                     then rem32 cursor BYTESPERBLOCK else 0)))
         (log_event
            (EvMemcpy
               (if fbn =? fbnEnd
                then sub32 (rem32 (add32 cursor numb) BYTESPERBLOCK)
                       (if fbn =? fbnStart
                        then rem32 cursor BYTESPERBLOCK else 0)
                else sub32 BYTESPERBLOCK
                       (if fbn =? fbnStart
                        then rem32 cursor BYTESPERBLOCK else 0)))
            st2)
       = Ok x st4
    /\ fsRead_loop n inum numb fbnStart fbnEnd (add32 fbn 1)
         (add32 cursor
            (if fbn =? fbnEnd
             then sub32 (rem32 (add32 cursor numb) BYTESPERBLOCK)
                    (if fbn =? fbnStart
                     then rem32 cursor BYTESPERBLOCK else 0)
             else sub32 BYTESPERBLOCK
                    (if fbn =? fbnStart
                     then rem32 cursor BYTESPERBLOCK else 0)))
         (add32 rb
            (if fbn =? fbnEnd
             then sub32 (rem32 (add32 cursor numb) BYTESPERBLOCK)
                    (if fbn =? fbnStart
                     then rem32 cursor BYTESPERBLOCK else 0)
             else sub32 BYTESPERBLOCK
                    (if fbn =? fbnStart
                     then rem32 cursor BYTESPERBLOCK else 0)))
         (memcpy buf rb
            (drop (Z.to_nat (if fbn =? fbnStart
                             then rem32 cursor BYTESPERBLOCK else 0)) bio)
            (if fbn =? fbnEnd
             then sub32 (rem32 (add32 cursor numb) BYTESPERBLOCK)
                    (if fbn =? fbnStart
                     then rem32 cursor BYTESPERBLOCK else 0)
             else sub32 BYTESPERBLOCK
                    (if fbn =? fbnStart
                     then rem32 cursor BYTESPERBLOCK else 0)))
         st4
       = Ok res st'.
Proof.
  intros Hrun. cbn [fsRead_loop] in Hrun. cbv zeta in Hrun.
  apply bind_Ok in Hrun as (dbn & st1 & Hres & Hrun).
  apply bind_Ok in Hrun as (bio & st2 & Hrd & Hrun).
  apply bind_Ok in Hrun as (buf' & st3 & Hcp & Hrun).
  apply bind_Ok in Hrun as (x & st4 & Hset & Hrun).
  unfold do_memcpy, bind, modify, ret in Hcp. injection Hcp as <- <-.
  exists dbn, st1, bio, st2, x, st4. auto.
Qed.

Lemma file_byte_log (st : FS) (e : event) (inum p : Z) :
  file_byte (log_event e st) inum p = file_byte st inum p.
Proof. reflexivity. Qed.

(** What one iteration does to a well-formed open file, for the offset
    [off] and the count [w] of the iteration: the bytes copied to [buf] are
    those of block [fbn] of the file from [off] on; the disk, the size and
    the bytes of the file are kept, and the cursor is the one set. *)
Lemma read_block_spec (st st1 st2 st4 : FS)
    (inum fbn off w rb cur' c0 dbn x : Z) (buf bio : list byte)
    (ino : Inode) :
  WF st inum ino -> open_cursor st inum = Some c0 ->
  0 <= fbn -> 0 <= off -> 0 <= w -> off + w <= BYTESPERBLOCK ->
  0 <= rb <= Z.of_nat (length buf) ->
  bfsFbnToDbn inum fbn st = Ok dbn st1 ->
  bioRead dbn st1 = Ok bio st2 ->
  bfsSetCursor inum cur' (log_event (EvMemcpy w) st2) = Ok x st4 ->
  exists ino4,
    WF st4 inum ino4
    /\ isize ino4 = isize ino
    /\ open_cursor st4 inum = Some cur'
    /\ disk st4 = disk st
    /\ (forall j, j <> inum -> inode_at j st4 = inode_at j st)
    /\ (forall p v, file_byte st inum p = Some v ->
                    file_byte st4 inum p = Some v)
    /\ (forall j, 0 <= j < w ->
          is_Some (file_byte st4 inum (fbn * BYTESPERBLOCK + off + j))
          /\ memcpy buf rb (drop (Z.to_nat off) bio) w !! Z.to_nat (rb + j)
             = file_byte st4 inum (fbn * BYTESPERBLOCK + off + j))
    /\ (forall k, 0 <= k < rb ->
          memcpy buf rb (drop (Z.to_nat off) bio) w !! Z.to_nat k
          = buf !! Z.to_nat k)
    /\ rb + w
       <= Z.of_nat (length (memcpy buf rb (drop (Z.to_nat off) bio) w)).
Proof.
  intros Hwf Hopen Hfbn Hoff Hw Hfit Hrb Hres Hrd Hset.
  destruct (bfsFbnToDbn_spec _ _ _ _ _ _ Hwf Hfbn Hres)
    as (ino1 & Hwf1 & Hsz & Hlk & Hpre & Hoft1 & Hdisk1 & Hoth).
  unfold bioRead in Hrd.
  destruct (dbn <? 0) eqn:Hdneg; [discriminate|].
  destruct (disk st1 !! Z.to_nat dbn) as [b|] eqn:Hbio; [|discriminate].
  injection Hrd as -> <-.
  pose proof Hwf1 as [Hino1 Hnd1 Hused1 Hsized1].
  pose proof (Forall_lookup_1 _ _ _ _ Hsized1 Hbio) as Hblen.
  simpl in Hblen.
  set (st3 := log_event (EvMemcpy w) (log_event (EvBioRead dbn) st1)) in *.
  assert (Hopen3 : open_cursor st3 inum = Some c0).
  { rewrite (open_cursor_oft st st3 inum); [assumption|exact Hoft1]. }
  rewrite (bfsSetCursor_open _ _ _ cur' Hopen3) in Hset.
  injection Hset as _ <-.
  assert (Hfb : forall p, file_byte (with_cursor inum cur' st3) inum p
                          = file_byte st1 inum p).
  { intros p. rewrite file_byte_with_cursor. reflexivity. }
  exists ino1. split.
  { apply WF_with_cursor. apply WF_log, WF_log. assumption. }
  split; [assumption|]. split.
  { apply (open_cursor_with_cursor _ _ c0). assumption. }
  split.
  { destruct (with_cursor_frame st3 inum cur') as (_ & _ & -> & _).
    exact Hdisk1. }
  split.
  { intros j Hj. rewrite inode_at_with_cursor. apply Hoth. assumption. }
  split.
  { intros p v Hv. rewrite Hfb.
    destruct Hwf as [Hino _ _ _].
    rewrite (file_byte_unfold st _ _ _ Hino) in Hv.
    rewrite (file_byte_unfold st1 _ _ _ Hino1).
    destruct (iblocks ino !! Z.to_nat (p / BYTESPERBLOCK)) as [d|] eqn:Hd;
      [|discriminate].
    rewrite (Hpre _ _ Hd), Hdisk1. assumption. }
  assert (Hdrop : Z.of_nat (length (drop (Z.to_nat off) bio))
                  = BYTESPERBLOCK - off).
  { rewrite length_drop. unfold BYTESPERBLOCK in *. lia. }
  split; [|split].
  - intros j Hj. rewrite Hfb.
    assert (Hpos : (fbn * BYTESPERBLOCK + off + j) / BYTESPERBLOCK = fbn
                   /\ (fbn * BYTESPERBLOCK + off + j) mod BYTESPERBLOCK
                      = off + j).
    { apply block_div_mod; unfold BYTESPERBLOCK in *; lia. }
    destruct Hpos as [Hp1 Hp2].
    rewrite (file_byte_unfold st1 _ _ _ Hino1), Hp1, Hlk, Hdneg, Hbio, Hp2.
    split.
    + apply lookup_lt_is_Some_2. unfold BYTESPERBLOCK in *. lia.
    + rewrite lookup_memcpy_in by lia.
      rewrite lookup_drop. f_equal. lia.
  - intros k Hk. apply lookup_memcpy_before; lia.
  - apply length_memcpy_ge; lia.
Qed.

(** The loop from a block boundary on: [n] iterations copy [tail_count]
    bytes of the file, block after block, whatever [fbnStart] is. *)
Lemma fsRead_tail (inum numb fbnStart fbnEnd : Z) :
  0 <= numb -> fbnEnd * BYTESPERBLOCK + numb < 2 ^ 31 ->
  forall (n : nat) (fbn rb : Z) (buf : list byte) (st st' : FS)
         (r : Z) (out : list byte) (ino : Inode) (c0 : Z),
  WF st inum ino -> open_cursor st inum = Some c0 ->
  0 <= fbn -> fbn + Z.of_nat n = fbnEnd + 1 ->
  0 <= rb <= Z.of_nat (length buf) ->
  rb + tail_count numb n < 2 ^ 31 ->
  fsRead_loop n inum numb fbnStart fbnEnd fbn (fbn * BYTESPERBLOCK) rb buf st
  = Ok (r, out) st' ->
  r = rb + tail_count numb n
  /\ exists ino',
       WF st' inum ino'
       /\ isize ino' = isize ino
       /\ open_cursor st' inum
          = Some (match n with
                  | O => c0
                  | S _ => fbn * BYTESPERBLOCK + tail_count numb n
                  end)
       /\ disk st' = disk st
       /\ (forall j, j <> inum -> inode_at j st' = inode_at j st)
       /\ (forall p v, file_byte st inum p = Some v ->
                       file_byte st' inum p = Some v)
       /\ (forall j, 0 <= j < tail_count numb n ->
             out !! Z.to_nat (rb + j)
             = file_byte st' inum (fbn * BYTESPERBLOCK + j))
       /\ (forall k, 0 <= k < rb -> out !! Z.to_nat k = buf !! Z.to_nat k)
       /\ r <= Z.of_nat (length out).
Proof.
  intros Hnumb Hmax.
  assert (Hlast : 0 <= numb mod BYTESPERBLOCK < BYTESPERBLOCK)
    by (apply Z.mod_pos_bound; unfold BYTESPERBLOCK; lia).
  assert (Hlast' : numb mod BYTESPERBLOCK <= numb)
    by (apply Z.mod_le; unfold BYTESPERBLOCK; lia).
  induction n as [|n IH];
    intros fbn rb buf st st' r out ino c0 Hwf Hopen Hfbn Hfuel Hrb Hsum Hrun.
  - injection Hrun as <- <- <-. cbn [tail_count].
    split; [lia|]. exists ino. repeat split; auto; try apply Hwf; try lia.
  - apply fsRead_loop_calls in Hrun
      as (dbn & st1 & bio & st2 & x & st4 & Hres & Hrd & Hset & Hrun).
    assert (Hoff0 : (if fbn =? fbnStart
                     then rem32 (fbn * BYTESPERBLOCK) BYTESPERBLOCK else 0)
                    = 0).
    { destruct (fbn =? fbnStart); [|reflexivity].
      rewrite rem32_block by (unfold BYTESPERBLOCK; lia).
      apply Z.mod_mul. unfold BYTESPERBLOCK. lia. }
    rewrite Hoff0 in Hset, Hrun.
    set (w := match n with O => numb mod BYTESPERBLOCK | S _ => BYTESPERBLOCK
              end).
    assert (Hw : 0 <= w <= BYTESPERBLOCK)
      by (unfold w; destruct n; unfold BYTESPERBLOCK in *; lia).
    assert (Htc : tail_count numb (S n) = w + tail_count numb n).
    { unfold w. destruct n as [|m]; cbn [tail_count]; [lia|].
      unfold BYTESPERBLOCK. lia. }
    assert (Hbtr : (if fbn =? fbnEnd
                    then sub32 (rem32 (add32 (fbn * BYTESPERBLOCK) numb)
                                  BYTESPERBLOCK) 0
                    else sub32 BYTESPERBLOCK 0) = w).
    { unfold w. destruct n as [|m].
      - assert (fbn = fbnEnd) by lia. subst fbn. rewrite Z.eqb_refl.
        rewrite add32_id by (unfold in_i32, BYTESPERBLOCK in *; lia).
        rewrite rem32_block by (unfold BYTESPERBLOCK in *; lia).
        rewrite Z.add_comm, Z.mod_add by (unfold BYTESPERBLOCK; lia).
        rewrite sub32_id by (unfold in_i32, BYTESPERBLOCK in *; lia).
        apply Z.sub_0_r.
      - destruct (fbn =? fbnEnd) eqn:E; [lia|].
        apply sub32_id. unfold in_i32, BYTESPERBLOCK. lia. }
    rewrite Hbtr in Hset, Hrun.
    assert (Htcn : 0 <= tail_count numb n).
    { destruct n; cbn [tail_count]; unfold BYTESPERBLOCK in *; lia. }
    assert (Hcur : add32 (fbn * BYTESPERBLOCK) w = fbn * BYTESPERBLOCK + w).
    { apply add32_id. unfold in_i32, BYTESPERBLOCK in *.
      destruct n; unfold w in *; lia. }
    assert (Hrb' : add32 rb w = rb + w).
    { apply add32_id. unfold in_i32. lia. }
    assert (Hfbn' : add32 fbn 1 = fbn + 1).
    { apply add32_id. unfold in_i32, BYTESPERBLOCK in *. lia. }
    rewrite Hcur in Hset, Hrun. rewrite Hrb', Hfbn' in Hrun.
    destruct (read_block_spec st st1 st2 st4 inum fbn 0 w rb
                (fbn * BYTESPERBLOCK + w) c0 dbn x buf bio ino)
      as (ino4 & Hwf4 & Hsz4 & Hopen4 & Hdisk4 & Hoth4 & Hkeep4 & Hnew4
          & Hold4 & Hlen4); try assumption; try lia.
    set (buf' := memcpy buf rb (drop (Z.to_nat 0) bio) w) in *.
    assert (Hfirst : forall j, 0 <= j < w ->
      forall st'', (forall p v, file_byte st4 inum p = Some v ->
                                file_byte st'' inum p = Some v) ->
      buf' !! Z.to_nat (rb + j)
      = file_byte st'' inum (fbn * BYTESPERBLOCK + j)).
    { intros j Hj st'' Hk. destruct (Hnew4 j Hj) as [[v Hv] Heq].
      rewrite Z.add_0_r in Hv, Heq. rewrite Heq, Hv.
      symmetry. apply Hk. assumption. }
    destruct n as [|m].
    + cbn [fsRead_loop] in Hrun. injection Hrun as <- <- <-.
      rewrite Htc. cbn [tail_count].
      split; [lia|]. exists ino4.
      split; [assumption|]. split; [assumption|].
      split; [rewrite Hopen4; f_equal; lia|].
      split; [assumption|]. split; [assumption|]. split; [assumption|].
      split; [|split; [assumption|lia]].
      intros j Hj. apply Hfirst; [lia|auto].
    + replace (fbn * BYTESPERBLOCK + w) with ((fbn + 1) * BYTESPERBLOCK)
        in Hrun by (unfold w; lia).
      destruct (IH (fbn + 1) (rb + w) buf' st4 st' r out ino4
                  (fbn * BYTESPERBLOCK + w))
        as (Hr & ino' & Hwf' & Hsz' & Hopen' & Hdisk' & Hoth' & Hkeep'
            & Hnew' & Hold' & Hlen'); try assumption; try lia.
      split; [lia|]. exists ino'.
      split; [assumption|]. split; [congruence|].
      split; [rewrite Hopen'; f_equal; unfold w in *; lia|].
      split; [congruence|]. split.
      { intros j Hj. rewrite Hoth', Hoth4; auto. }
      split; [auto|]. split; [|split; [|assumption]].
      * intros j Hj. destruct (Z_lt_dec j w) as [Hin|Hout].
        -- rewrite Hold' by lia. apply Hfirst; [lia|assumption].
        -- replace (rb + j) with (rb + w + (j - w)) by lia.
           rewrite Hnew' by lia. f_equal. unfold w. lia.
      * intros k Hk. rewrite Hold' by lia. apply Hold4. lia.
Qed.

Section ReadSpec.

Context {descriptors : Descriptors}.

(** What a returning [fsRead] does to a well-formed open file: it copies
    [read_count] bytes of the file, from the cursor on, to the start of
    [buf], returns that count and leaves the cursor behind the last byte
    copied; it writes nothing to the disk. *)
Lemma fsRead_spec (fd numb : Z) (buf out : list byte) (st st' : FS)
    (c r : Z) (ino : Inode) :
  open_cursor st (bfsFdToInum fd) = Some c ->
  WF st (bfsFdToInum fd) ino ->
  0 <= c -> 0 <= numb -> c + numb + numb < 2 ^ 31 ->
  fsRead fd numb buf st = Ok (r, out) st' ->
  r = read_count c numb
  /\ open_cursor st' (bfsFdToInum fd) = Some (c + r)
  /\ exists ino',
       WF st' (bfsFdToInum fd) ino'
       /\ isize ino' = isize ino
       /\ disk st' = disk st
       /\ (forall j, j <> bfsFdToInum fd -> inode_at j st' = inode_at j st)
       /\ (forall p v, file_byte st (bfsFdToInum fd) p = Some v ->
                       file_byte st' (bfsFdToInum fd) p = Some v)
       /\ (forall j, 0 <= j < r ->
             out !! Z.to_nat j = file_byte st' (bfsFdToInum fd) (c + j))
       /\ r <= Z.of_nat (length out).
Proof.
  intros Hopen Hwf Hc Hnumb Hmax Hrun.
  set (inum := bfsFdToInum fd) in *.
  unfold fsRead in Hrun. fold inum in Hrun.
  rewrite (bind_eq _ _ _ _ _ (bfsTell_open _ _ _ Hopen)) in Hrun.
  unfold fsRead_at in Hrun.
  destruct (block_bounds c Hc) as (Hd & Hm & Hdm).
  destruct (block_bounds (c + numb) ltac:(lia)) as (Hd' & Hm' & Hdm').
  assert (Hmono : c / BYTESPERBLOCK <= (c + numb) / BYTESPERBLOCK)
    by (apply Z.div_le_mono; unfold BYTESPERBLOCK; lia).
  rewrite (add32_id c numb) in Hrun by (unfold in_i32; lia).
  rewrite !div32_block in Hrun by lia.
  set (s := c / BYTESPERBLOCK) in *.
  set (e := (c + numb) / BYTESPERBLOCK) in *.
  set (a := c mod BYTESPERBLOCK) in *.
  replace (Z.to_nat (e - s + 1)) with (S (Z.to_nat (e - s))) in Hrun by lia.
  apply fsRead_loop_calls in Hrun
    as (dbn & st1 & bio & st2 & x & st4 & Hres & Hrd & Hset & Hrun).
  rewrite Z.eqb_refl in Hset, Hrun.
  rewrite (rem32_block c Hc) in Hset, Hrun. fold a in Hset, Hrun.
  unfold read_count. fold s e a.
  destruct (s =? e) eqn:Hse.
  - (* the byte after the range is in the block of the cursor *)
    apply Z.eqb_eq in Hse.
    assert (Hnb : (c + numb) mod BYTESPERBLOCK = a + numb)
      by (unfold BYTESPERBLOCK in *; lia).
    assert (Hbtr : sub32 (rem32 (add32 c numb) BYTESPERBLOCK) a = numb).
    { rewrite add32_id by (unfold in_i32; lia).
      rewrite rem32_block by lia. rewrite Hnb.
      rewrite sub32_id; unfold in_i32; lia. }
    rewrite Hbtr in Hset, Hrun.
    rewrite (add32_id c numb) in Hset by (unfold in_i32; lia).
    replace (Z.to_nat (e - s)) with O in Hrun by lia.
    cbn [fsRead_loop] in Hrun. injection Hrun as <- <- <-.
    rewrite (add32_id 0 numb) by (unfold in_i32; lia).
    destruct (read_block_spec st st1 st2 st4 inum s a numb 0 (c + numb) c
                dbn x buf bio ino)
      as (ino4 & Hwf4 & Hsz4 & Hopen4 & Hdisk4 & Hoth4 & Hkeep4 & Hnew4
          & Hold4 & Hlen4); try assumption; try lia.
    split; [lia|]. split; [rewrite Hopen4; f_equal; lia|].
    exists ino4. repeat (split; [assumption|]).
    split; [|lia].
    intros j Hj. destruct (Hnew4 j ltac:(lia)) as [_ Heq].
    rewrite Z.add_0_l in Heq. rewrite Heq. f_equal.
    unfold BYTESPERBLOCK in *. lia.
  - (* the range spans several blocks *)
    apply Z.eqb_neq in Hse.
    assert (Hbtr : sub32 BYTESPERBLOCK a = BYTESPERBLOCK - a).
    { apply sub32_id. unfold in_i32, BYTESPERBLOCK in *. lia. }
    rewrite Hbtr in Hset, Hrun.
    assert (Hcur : add32 c (BYTESPERBLOCK - a) = (s + 1) * BYTESPERBLOCK).
    { rewrite add32_id; unfold in_i32, BYTESPERBLOCK in *; lia. }
    rewrite Hcur in Hset, Hrun.
    rewrite (add32_id 0 (BYTESPERBLOCK - a)) in Hrun
      by (unfold in_i32, BYTESPERBLOCK in *; lia).
    rewrite (add32_id s 1) in Hrun
      by (unfold in_i32, BYTESPERBLOCK in *; lia).
    rewrite Z.add_0_l in Hrun.
    destruct (read_block_spec st st1 st2 st4 inum s a (BYTESPERBLOCK - a) 0
                ((s + 1) * BYTESPERBLOCK) c dbn x buf bio ino)
      as (ino4 & Hwf4 & Hsz4 & Hopen4 & Hdisk4 & Hoth4 & Hkeep4 & Hnew4
          & Hold4 & Hlen4); try assumption; try lia.
    set (buf' := memcpy buf 0 (drop (Z.to_nat a) bio) (BYTESPERBLOCK - a))
      in *.
    assert (Hlast : 0 <= numb mod BYTESPERBLOCK < BYTESPERBLOCK)
      by (apply Z.mod_pos_bound; unfold BYTESPERBLOCK; lia).
    assert (Hlast' : numb mod BYTESPERBLOCK <= numb)
      by (apply Z.mod_le; unfold BYTESPERBLOCK; lia).
    assert (Htc : tail_count numb (Z.to_nat (e - s))
                  = BYTESPERBLOCK * (e - s - 1) + numb mod BYTESPERBLOCK).
    { destruct (Z.to_nat (e - s)) as [|k] eqn:Hk; [lia|].
      cbn [tail_count]. f_equal. f_equal. lia. }
    destruct (fsRead_tail inum numb s e Hnumb
                ltac:(unfold BYTESPERBLOCK in *; lia)
                (Z.to_nat (e - s)) (s + 1) (BYTESPERBLOCK - a) buf' st4 st'
                r out ino4 ((s + 1) * BYTESPERBLOCK))
      as (Hr & ino' & Hwf' & Hsz' & Hopen' & Hdisk' & Hoth' & Hkeep'
          & Hnew' & Hold' & Hlen'); try assumption;
      try (rewrite ?Htc; unfold BYTESPERBLOCK in *; lia).
    rewrite Htc in Hr, Hnew'.
    split; [lia|]. split.
    { rewrite Hopen'. destruct (Z.to_nat (e - s)) as [|k] eqn:Hk; [lia|].
      f_equal. rewrite Htc. unfold BYTESPERBLOCK in *. lia. }
    exists ino'. split; [assumption|]. split; [congruence|].
    split; [congruence|]. split.
    { intros j Hj. rewrite Hoth', Hoth4; auto. }
    split; [auto|]. split; [|assumption].
    intros j Hj. destruct (Z_lt_dec j (BYTESPERBLOCK - a)) as [Hin|Hout].
    + rewrite Hold' by lia.
      destruct (Hnew4 j ltac:(lia)) as [[v Hv] Heq].
      rewrite Z.add_0_l in Heq. rewrite Heq.
      replace (c + j) with (s * BYTESPERBLOCK + a + j)
        by (unfold BYTESPERBLOCK in *; lia).
      rewrite Hv. symmetry. apply Hkeep'. assumption.
    + replace j with (BYTESPERBLOCK - a + (j - (BYTESPERBLOCK - a))) at 1
        by lia.
      rewrite Hnew' by lia. f_equal. unfold BYTESPERBLOCK in *. lia.
Qed.

End ReadSpec.

(** [read_count] in terms of the count asked for. *)
Lemma read_count_cases (c numb : Z) :
  0 <= c -> 0 <= numb ->
  (c mod BYTESPERBLOCK = 0 \/ c / BYTESPERBLOCK = (c + numb) / BYTESPERBLOCK ->
   read_count c numb = numb)
  /\ (c mod BYTESPERBLOCK <> 0 ->
      c / BYTESPERBLOCK <> (c + numb) / BYTESPERBLOCK ->
      read_count c numb
      = if c mod BYTESPERBLOCK <=? (c + numb) mod BYTESPERBLOCK
        then numb - c mod BYTESPERBLOCK
        else numb + BYTESPERBLOCK - c mod BYTESPERBLOCK).
Proof.
  intros Hc Hnumb.
  destruct (block_bounds c Hc) as (Hd & Hm & Hdm).
  destruct (block_bounds (c + numb) ltac:(lia)) as (Hd' & Hm' & Hdm').
  assert (Hmono : c / BYTESPERBLOCK <= (c + numb) / BYTESPERBLOCK)
    by (apply Z.div_le_mono; unfold BYTESPERBLOCK; lia).
  unfold read_count.
  set (s := c / BYTESPERBLOCK) in *.
  set (e := (c + numb) / BYTESPERBLOCK) in *.
  set (a := c mod BYTESPERBLOCK) in *.
  set (re := (c + numb) mod BYTESPERBLOCK) in *.
  destruct (s =? e) eqn:Hse.
  - apply Z.eqb_eq in Hse. split; [reflexivity|]. intros _ Hne. lia.
  - apply Z.eqb_neq in Hse.
    destruct (Z_le_dec a re) as [Hle|Hgt].
    + assert (Hnm : numb / BYTESPERBLOCK = e - s
                    /\ numb mod BYTESPERBLOCK = re - a).
      { apply block_div_mod; unfold BYTESPERBLOCK in *; lia. }
      destruct Hnm as [_ ->]. split.
      * intros [Ha|Hs]; [|contradiction]. unfold BYTESPERBLOCK in *. lia.
      * intros _ _. destruct (a <=? re) eqn:E; [|lia].
        unfold BYTESPERBLOCK in *. lia.
    + assert (Hnm : numb / BYTESPERBLOCK = e - s - 1
                    /\ numb mod BYTESPERBLOCK = BYTESPERBLOCK + re - a).
      { apply block_div_mod; unfold BYTESPERBLOCK in *; lia. }
      destruct Hnm as [_ ->]. split.
      * intros [Ha|Hs]; [|contradiction]. unfold BYTESPERBLOCK in *. lia.
      * intros _ _. destruct (a <=? re) eqn:E; [lia|].
        unfold BYTESPERBLOCK in *. lia.
Qed.

Lemma bfsFbnToDbn_keeps (st st1 : FS) (inum fbn dbn : Z) :
  bfsFbnToDbn inum fbn st = Ok dbn st1 ->
  g_oft st1 = g_oft st /\ disk st1 = disk st
  /\ (forall j, size_of st1 j = size_of st j).
Proof.
  unfold bfsFbnToDbn.
  destruct (inode_at inum st) as [ino|] eqn:Hino; [|discriminate].
  destruct (fbn <? 0); [discriminate|].
  destruct (iblocks ino !! Z.to_nat fbn) as [d|].
  - intros [= <- <-]. auto.
  - destruct (fbn =? Z.of_nat (length (iblocks ino))); [|discriminate].
    unfold bind, bfsAllocBlock.
    destruct (find_index negb (freelist st)); [|discriminate].
    simpl. intros [= <- <-]. simpl. repeat split.
    intros j. unfold size_of, inode_at in *. simpl.
    destruct (j <? 0) eqn:Hj; [reflexivity|].
    destruct (inum <? 0) eqn:Hi; [discriminate|].
    destruct (decide (Z.to_nat inum = Z.to_nat j)) as [Heq|Hne].
    + rewrite <- Heq, list_lookup_insert_eq, Hino; [reflexivity|].
      apply lookup_lt_Some in Hino. assumption.
    + rewrite list_lookup_insert_ne by assumption. reflexivity.
Qed.

Lemma bfsSetCursor_keeps (st st1 : FS) (inum c x : Z) :
  bfsSetCursor inum c st = Ok x st1 ->
  inodes st1 = inodes st /\ freelist st1 = freelist st
  /\ disk st1 = disk st.
Proof.
  unfold bfsSetCursor, bind, bfsFindOFTE, store_curs, modify, ret.
  destruct (find_index (ofte_matches inum) (g_oft st)).
  - intros [= _ <-]. auto.
  - destruct (find_index ofte_free (g_oft st)); [|discriminate].
    intros [= _ <-]. auto.
Qed.

Lemma fsRead_loop_keeps (n : nat) (inum numb fbnStart fbnEnd : Z) :
  forall (fbn cursor rb : Z) (buf : list byte) (st st' : FS)
         (res : Z * list byte),
  fsRead_loop n inum numb fbnStart fbnEnd fbn cursor rb buf st = Ok res st' ->
  disk st' = disk st /\ (forall j, size_of st' j = size_of st j).
Proof.
  induction n as [|n IH]; intros fbn cursor rb buf st st' res Hrun.
  - injection Hrun as _ <-. auto.
  - apply fsRead_loop_calls in Hrun
      as (dbn & st1 & bio & st2 & x & st4 & Hres & Hrd & Hset & Hrun).
    apply IH in Hrun as [Hd Hs].
    apply bfsFbnToDbn_keeps in Hres as (_ & Hd1 & Hs1).
    apply bfsSetCursor_keeps in Hset as (Hi4 & _ & Hd4).
    unfold bioRead in Hrd. destruct (dbn <? 0); [discriminate|].
    destruct (disk st1 !! Z.to_nat dbn); [|discriminate].
    injection Hrd as _ <-. simpl in *.
    split; [congruence|].
    intros j. rewrite Hs, <- Hs1. unfold size_of, inode_at.
    rewrite Hi4. reflexivity.
Qed.

Lemma fsSeek_set_open {descriptors : Descriptors} (fd x : Z) (st : FS)
    (c : Z) :
  open_cursor st (bfsFdToInum fd) = Some c -> 0 <= x ->
  fsSeek fd x SEEK_SET st = Ok 0 (with_cursor (bfsFdToInum fd) x st).
Proof.
  intros Hopen Hx.
  destruct (open_cursor_entry _ _ _ Hopen) as (k & e & Hk & He & Hc).
  unfold fsSeek. destruct (x <? 0) eqn:Hneg; [lia|].
  unfold bind, bfsFindOFTE. rewrite Hk. simpl.
  unfold with_cursor. rewrite Hk, Nat2Z.id. reflexivity.
Qed.

Section ReadProps.

Context {descriptors : Descriptors}.

(** X1.  The count of [fsRead].  A returning [fsRead] on a well-formed open
    file returns [read_count] and advances the cursor by what it returns.
    That is [numb] when the cursor is on a block boundary, or when the
    byte at [c + numb], the first one after the range, is still in the block
    of the cursor ([c / BYTESPERBLOCK = (c + numb) / BYTESPERBLOCK]: a range
    that ends exactly at the end of its block is not such a case).
    Otherwise it is [numb] less the offset of the cursor in its block when
    that offset is at most [(c + numb) mod BYTESPERBLOCK], and that plus
    [BYTESPERBLOCK] when it is greater. *)
Theorem fsRead_count (fd numb : Z) (buf out : list byte) (st st' : FS)
    (c r : Z) :
  open_cursor st (bfsFdToInum fd) = Some c ->
  wf_file st (bfsFdToInum fd) = true ->
  0 <= c -> 0 <= numb -> c + numb + numb < 2 ^ 31 ->
  fsRead fd numb buf st = Ok (r, out) st' ->
  r = read_count c numb
  /\ fsTell fd st' = Ok (c + r) st'
  /\ (c mod BYTESPERBLOCK = 0
      \/ c / BYTESPERBLOCK = (c + numb) / BYTESPERBLOCK -> r = numb)
  /\ (c mod BYTESPERBLOCK <> 0 ->
      c / BYTESPERBLOCK <> (c + numb) / BYTESPERBLOCK ->
      r = if c mod BYTESPERBLOCK <=? (c + numb) mod BYTESPERBLOCK
          then numb - c mod BYTESPERBLOCK
          else numb + BYTESPERBLOCK - c mod BYTESPERBLOCK).
Proof.
  intros Hopen Hwf Hc Hnumb Hmax Hrun.
  apply wf_file_WF in Hwf as [ino Hwf].
  destruct (fsRead_spec _ _ _ _ _ _ _ _ _ Hopen Hwf Hc Hnumb Hmax Hrun)
    as (Hr & Hcur & _).
  destruct (read_count_cases c numb Hc Hnumb) as [Hexact Hoff].
  split; [assumption|]. split; [apply bfsTell_open; assumption|].
  rewrite Hr. split; assumption.
Qed.

(** X2.  The bytes of [fsRead].  Whatever count [r] a returning [fsRead]
    gives, the first [r] bytes of the buffer are then the bytes of the file
    from the cursor of the call on, and a byte the file had before the call
    is the byte copied. *)
Theorem fsRead_copies_file_bytes (fd numb : Z) (buf out : list byte)
    (st st' : FS) (c r : Z) :
  open_cursor st (bfsFdToInum fd) = Some c ->
  wf_file st (bfsFdToInum fd) = true ->
  0 <= c -> 0 <= numb -> c + numb + numb < 2 ^ 31 ->
  fsRead fd numb buf st = Ok (r, out) st' ->
  r <= Z.of_nat (length out)
  /\ (forall j, 0 <= j < r ->
        out !! Z.to_nat j = file_byte st' (bfsFdToInum fd) (c + j))
  /\ (forall j v, 0 <= j < r ->
        file_byte st (bfsFdToInum fd) (c + j) = Some v ->
        out !! Z.to_nat j = Some v).
Proof.
  intros Hopen Hwf Hc Hnumb Hmax Hrun.
  apply wf_file_WF in Hwf as [ino Hwf].
  destruct (fsRead_spec _ _ _ _ _ _ _ _ _ Hopen Hwf Hc Hnumb Hmax Hrun)
    as (_ & _ & ino' & _ & _ & _ & _ & Hkeep & Hnew & Hlen).
  split; [assumption|]. split; [assumption|].
  intros j v Hj Hv. rewrite Hnew by assumption. apply Hkeep. assumption.
Qed.

(** X4.  Write, seek back, read.  After [numb] bytes are written at cursor
    [c] and the cursor is set back to [c], a read of [numb] bytes copies
    [read_count] bytes, and every byte it copies within the [numb] asked for
    is the byte written.  When the cursor is on a block boundary, or the
    byte at [c + numb], the first one after the range, is still in the block
    of the cursor ([c / BYTESPERBLOCK = (c + numb) / BYTESPERBLOCK]), it
    returns [numb] and gives back exactly the bytes written. *)
Theorem write_seek_read_roundtrip (fd numb : Z) (B buf out : list byte)
    (st st' : FS) (c r : Z) :
  open_cursor st (bfsFdToInum fd) = Some c ->
  wf_file st (bfsFdToInum fd) = true ->
  0 <= c -> 0 <= numb -> c + numb + numb < 2 ^ 31 ->
  Z.of_nat (length B) = numb ->
  (do _ <- fsWrite fd numb B;
   do _ <- fsSeek fd c SEEK_SET;
   fsRead fd numb buf) st = Ok (r, out) st' ->
  r = read_count c numb
  /\ (forall j, 0 <= j < r -> j < numb ->
        out !! Z.to_nat j = B !! Z.to_nat j)
  /\ (c mod BYTESPERBLOCK = 0
      \/ c / BYTESPERBLOCK = (c + numb) / BYTESPERBLOCK ->
      r = numb /\ take (Z.to_nat numb) out = B).
Proof.
  intros Hopen Hwf Hc Hnumb Hmax HB Hrun.
  apply wf_file_WF in Hwf as [ino Hwf].
  apply bind_Ok in Hrun as (x & st1 & Hwr & Hrun).
  assert (Hmax1 : c + numb < 2 ^ 31) by lia.
  assert (HB1 : numb <= Z.of_nat (length B)) by lia.
  destruct (fsWrite_spec _ _ _ _ _ _ _ _ Hopen Hwf Hc Hnumb Hmax1 HB1 Hwr)
    as (_ & Hcur1 & ino1 & Hwf1 & _ & _ & _ & Hnew1).
  rewrite (bind_eq _ _ _ _ _ (fsSeek_set_open _ c _ _ Hcur1 Hc)) in Hrun.
  set (st2 := with_cursor (bfsFdToInum fd) c st1) in *.
  assert (Hopen2 : open_cursor st2 (bfsFdToInum fd) = Some c)
    by (apply (open_cursor_with_cursor _ _ (c + numb)); assumption).
  assert (Hwf2 : WF st2 (bfsFdToInum fd) ino1)
    by (apply WF_with_cursor; assumption).
  destruct (fsRead_spec _ _ _ _ _ _ _ _ _ Hopen2 Hwf2 Hc Hnumb Hmax Hrun)
    as (Hr & _ & ino' & _ & _ & _ & _ & Hkeep & Hnew & Hlen).
  assert (Hdata : forall j, 0 <= j < r -> j < numb ->
                    out !! Z.to_nat j = B !! Z.to_nat j).
  { intros j Hj Hjn. rewrite (Hnew j Hj).
    specialize (Hnew1 j ltac:(lia)).
    destruct (B !! Z.to_nat j) as [b|] eqn:Hb.
    - apply Hkeep. unfold st2. rewrite file_byte_with_cursor. exact Hnew1.
    - apply lookup_ge_None in Hb. lia. }
  split; [assumption|]. split; [assumption|].
  intros Hal.
  rewrite (proj1 (read_count_cases c numb Hc Hnumb) Hal) in Hr.
  split; [assumption|]. subst r.
  apply list_eq. intros i.
  destruct (decide (i < Z.to_nat numb)%nat) as [Hlt|Hge].
  - rewrite lookup_take_lt by assumption.
    specialize (Hdata (Z.of_nat i) ltac:(lia) ltac:(lia)).
    rewrite Nat2Z.id in Hdata. assumption.
  - rewrite lookup_take_ge by lia. symmetry.
    apply lookup_ge_None. lia.
Qed.

Lemma read_count_bound (c numb : Z) :
  0 <= c -> 0 <= numb -> 0 <= read_count c numb <= numb + numb.
Proof.
  intros Hc Hnumb.
  destruct (block_bounds c Hc) as (Hd & Hm & Hdm).
  destruct (block_bounds (c + numb) ltac:(lia)) as (Hd' & Hm' & Hdm').
  assert (Hmono : c / BYTESPERBLOCK <= (c + numb) / BYTESPERBLOCK)
    by (apply Z.div_le_mono; unfold BYTESPERBLOCK; lia).
  assert (Hlast : 0 <= numb mod BYTESPERBLOCK < BYTESPERBLOCK)
    by (apply Z.mod_pos_bound; unfold BYTESPERBLOCK; lia).
  assert (Hlast' : numb mod BYTESPERBLOCK <= numb)
    by (apply Z.mod_le; unfold BYTESPERBLOCK; lia).
  unfold read_count.
  destruct (c / BYTESPERBLOCK =? (c + numb) / BYTESPERBLOCK) eqn:E; [lia|].
  apply Z.eqb_neq in E. unfold BYTESPERBLOCK in *. lia.
Qed.

(** X13.  Reads follow one another.  Of two returning reads in a row
    through one descriptor, the second starts at the byte after the last
    byte the first one copied: whatever the two counts are, the two buffers
    hold consecutive bytes of the file, none left out and none twice. *)
Theorem fsRead_twice_contiguous (fd n1 n2 : Z)
    (buf1 buf2 out1 out2 : list byte) (st st1 st2 : FS) (c r1 r2 : Z) :
  open_cursor st (bfsFdToInum fd) = Some c ->
  wf_file st (bfsFdToInum fd) = true ->
  0 <= c -> 0 <= n1 -> 0 <= n2 ->
  c + (n1 + n1) + (n2 + n2) < 2 ^ 31 ->
  fsRead fd n1 buf1 st = Ok (r1, out1) st1 ->
  fsRead fd n2 buf2 st1 = Ok (r2, out2) st2 ->
  fsTell fd st2 = Ok (c + r1 + r2) st2
  /\ (forall j, 0 <= j < r1 ->
        out1 !! Z.to_nat j = file_byte st2 (bfsFdToInum fd) (c + j))
  /\ (forall j, 0 <= j < r2 ->
        out2 !! Z.to_nat j = file_byte st2 (bfsFdToInum fd) (c + r1 + j)).
Proof.
  intros Hopen Hwf Hc Hn1 Hn2 Hmax Hrd1 Hrd2.
  apply wf_file_WF in Hwf as [ino Hwf].
  assert (Hmax1 : c + n1 + n1 < 2 ^ 31) by lia.
  destruct (fsRead_spec _ _ _ _ _ _ _ _ _ Hopen Hwf Hc Hn1 Hmax1 Hrd1)
    as (Hr1 & Hcur1 & ino1 & Hwf1 & _ & _ & _ & _ & Hnew1 & _).
  pose proof (read_count_bound c n1 Hc Hn1) as Hb1. rewrite <- Hr1 in Hb1.
  assert (Hc1 : 0 <= c + r1) by lia.
  assert (Hmax2 : c + r1 + n2 + n2 < 2 ^ 31) by lia.
  destruct (fsRead_spec _ _ _ _ _ _ _ _ _ Hcur1 Hwf1 Hc1 Hn2 Hmax2 Hrd2)
    as (Hr2 & Hcur2 & ino2 & _ & _ & _ & _ & Hkeep2 & Hnew2 & _).
  split; [apply bfsTell_open; assumption|]. split; [|assumption].
  intros j Hj. rewrite (Hnew1 j Hj).
  destruct (file_byte st1 (bfsFdToInum fd) (c + j)) as [v|] eqn:Hv.
  - symmetry. apply Hkeep2. assumption.
  - exfalso. specialize (Hnew1 j Hj). rewrite Hv in Hnew1.
    apply lookup_ge_None in Hnew1.
    destruct (fsRead_spec _ _ _ _ _ _ _ _ _ Hopen Hwf Hc Hn1 Hmax1 Hrd1)
      as (_ & _ & _ & _ & _ & _ & _ & _ & _ & Hlen).
    lia.
Qed.

End ReadProps.

(** ** The blocks a call resolves *)

Lemma resolved_fbns_app (l1 l2 : list event) :
  resolved_fbns (l1 ++ l2) = resolved_fbns l1 ++ resolved_fbns l2.
Proof. unfold resolved_fbns. apply flat_map_app. Qed.

Lemma written_dbns_app (l1 l2 : list event) :
  written_dbns (l1 ++ l2) = written_dbns l1 ++ written_dbns l2.
Proof. unfold written_dbns. apply flat_map_app. Qed.

Lemma resolved_dbns_app (l1 l2 : list event) :
  resolved_dbns (l1 ++ l2) = resolved_dbns l1 ++ resolved_dbns l2.
Proof. unfold resolved_dbns. apply flat_map_app. Qed.

Lemma read_dbns_app (l1 l2 : list event) :
  read_dbns (l1 ++ l2) = read_dbns l1 ++ read_dbns l2.
Proof. unfold read_dbns. apply flat_map_app. Qed.

Lemma copied_bytes_app (l1 l2 : list event) :
  copied_bytes (l1 ++ l2) = copied_bytes l1 + copied_bytes l2.
Proof.
  induction l1 as [|e l1 IH]; [reflexivity|].
  simpl. destruct e; rewrite ?IH; simpl; lia.
Qed.

Lemma bioWrite_trace (st st1 : FS) (dbn : Z) (bio : list byte) :
  bioWrite dbn bio st = Ok tt st1 -> trace st1 = trace st ++ [EvBioWrite dbn].
Proof.
  unfold bioWrite. destruct (dbn <? 0); [discriminate|].
  destruct (disk st !! Z.to_nat dbn); [|discriminate].
  intros [= <-]. reflexivity.
Qed.

Lemma fsRead_loop_resolves (inum numb fbnStart fbnEnd : Z) (n : nat) :
  forall (fbn cursor rb : Z) (buf : list byte) (st st' : FS)
         (res : Z * list byte),
  0 <= fbn -> fbn + Z.of_nat n < 2 ^ 31 ->
  fsRead_loop n inum numb fbnStart fbnEnd fbn cursor rb buf st = Ok res st' ->
  exists added,
    trace st' = trace st ++ added
    /\ resolved_fbns added = seqZ fbn (Z.of_nat n)
    /\ written_dbns added = [].
Proof.
  induction n as [|n IH]; intros fbn cursor rb buf st st' res Hfbn Hmax Hrun.
  - injection Hrun as _ <-. exists []. rewrite app_nil_r.
    repeat split; reflexivity.
  - apply fsRead_loop_iter in Hrun
      as (dbn & st1 & bio & st2 & st4 & Hres & Hrd & Htr & Hrun).
    rewrite add32_id in Hrun by (unfold in_i32; lia).
    apply IH in Hrun as (added & Htr' & Hfbns & Hwr); [|lia|lia].
    eexists. split; [rewrite Htr', Htr, <- app_assoc; reflexivity|].
    rewrite resolved_fbns_app, written_dbns_app, Hfbns, Hwr.
    split; [|reflexivity].
    rewrite (seqZ_cons fbn) by lia. cbn. f_equal. f_equal; lia.
Qed.

(** One returning iteration of the loop of [fsWrite] adds four calls to the
    trace. *)
Lemma fsWrite_block_trace (st st' : FS) (inum i off w : Z)
    (src : list byte) (k : M unit) :
  (do dbn <- bfsFbnToDbn inum i;
   do bio <- bioRead dbn;
   do bio' <- do_memcpy bio off src w;
   do _ <- bioWrite dbn bio';
   k) st = Ok tt st' ->
  exists dbn st4,
    trace st4 = trace st ++ [EvFbnToDbn inum i dbn; EvBioRead dbn;
                             EvMemcpy w; EvBioWrite dbn]
    /\ k st4 = Ok tt st'.
Proof.
  intros Hrun.
  apply bind_Ok in Hrun as (dbn & st1 & Hres & Hrun).
  apply bind_Ok in Hrun as (bio & st2 & Hrd & Hrun).
  apply bind_Ok in Hrun as (bio' & st3 & Hcp & Hrun).
  apply bind_Ok in Hrun as ([] & st4 & Hwr & Hrun).
  unfold do_memcpy, bind, modify, ret in Hcp. injection Hcp as <- <-.
  exists dbn, st4. split; [|assumption].
  rewrite (bioWrite_trace _ _ _ _ Hwr). cbn [trace log_event].
  rewrite (bioRead_trace _ _ _ _ Hrd), (bfsFbnToDbn_trace _ _ _ _ _ Hres).
  rewrite <- !app_assoc. reflexivity.
Qed.

Lemma fsWrite_loop_resolves (inum c numb : Z) (buf : list byte) :
  0 <= c -> 0 <= numb -> c + numb < 2 ^ 31 ->
  forall (n : nat) (i btw bioOff bufOff : Z) (st st' : FS),
  0 <= bufOff -> 0 <= btw -> bufOff + btw = numb ->
  (0 < btw ->
   i = (c + bufOff) / BYTESPERBLOCK
   /\ (bioOff = BYTESPERBLOCK - (c + bufOff) mod BYTESPERBLOCK
       \/ (bioOff = 0 /\ (c + bufOff) mod BYTESPERBLOCK = 0))) ->
  (0 < btw -> (c + numb - 1) / BYTESPERBLOCK < i + Z.of_nat n) ->
  fsWrite_loop n inum buf i btw bioOff bufOff st = Ok tt st' ->
  exists added,
    trace st' = trace st ++ added
    /\ written_dbns added = resolved_dbns added
    /\ read_dbns added = resolved_dbns added
    /\ resolved_fbns added
       = seqZ i (if btw =? 0 then 0
                 else (c + numb - 1) / BYTESPERBLOCK - i + 1)
    /\ copied_bytes added = btw
    /\ length (written_dbns added) = length (resolved_fbns added).
Proof.
  intros Hc Hnumb Hmax.
  assert (Hdone : forall (st : FS) (i : Z),
    exists added,
      trace st = trace st ++ added
      /\ written_dbns added = resolved_dbns added
      /\ read_dbns added = resolved_dbns added
      /\ resolved_fbns added = seqZ i (if 0 =? 0 then 0 else
           (c + numb - 1) / BYTESPERBLOCK - i + 1)
      /\ copied_bytes added = 0
      /\ length (written_dbns added) = length (resolved_fbns added)).
  { intros st i. exists []. rewrite app_nil_r. repeat split; reflexivity. }
  induction n as [|n IH]; intros i btw bioOff bufOff st st'
    Hbo Hbtw Hsum Hinv Hfuel Hrun.
  - injection Hrun as <-.
    destruct (Z_lt_dec 0 btw) as [Hpos|Hzero].
    + exfalso. destruct (Hinv Hpos) as [Hi _]. specialize (Hfuel Hpos).
      assert ((c + bufOff) / BYTESPERBLOCK
              <= (c + numb - 1) / BYTESPERBLOCK)
        by (apply Z.div_le_mono; unfold BYTESPERBLOCK; lia).
      lia.
    + assert (btw = 0) by lia. subst btw. apply Hdone.
  - destruct (Z_lt_dec 0 btw) as [Hpos|Hzero].
    2:{ assert (btw = 0) by lia. subst btw. cbn [fsWrite_loop] in Hrun.
        injection Hrun as <-. apply Hdone. }
    destruct (Hinv Hpos) as [Hi Hoff]. specialize (Hfuel Hpos).
    rewrite (fsWrite_loop_step n inum buf c numb) in Hrun by assumption.
    destruct (block_bounds (c + bufOff) ltac:(lia)) as (Hd & Hm & Hdm).
    set (off := (c + bufOff) mod BYTESPERBLOCK) in *.
    set (w := Z.min btw (BYTESPERBLOCK - off)) in *.
    assert (Hw : 0 < w <= btw /\ w <= BYTESPERBLOCK - off) by lia.
    apply fsWrite_block_trace in Hrun as (dbn & st4 & Htr & Hrun).
    assert (Hlastblk : btw - w = 0 -> (c + numb - 1) / BYTESPERBLOCK = i).
    { intros Hz.
      assert (Hx : (c + numb - 1) / BYTESPERBLOCK = i
                   /\ (c + numb - 1) mod BYTESPERBLOCK = off + w - 1).
      { apply block_div_mod; unfold BYTESPERBLOCK in *; lia. }
      apply Hx. }
    apply IH in Hrun as (added & Htr' & Hwd & Hrd & Hfbns & Hcp & Hlen);
      try lia.
    + eexists. split; [rewrite Htr', Htr, <- app_assoc; reflexivity|].
      split;
        [rewrite written_dbns_app, resolved_dbns_app, Hwd; reflexivity|].
      split; [rewrite read_dbns_app, resolved_dbns_app, Hrd; reflexivity|].
      rewrite resolved_fbns_app, written_dbns_app, copied_bytes_app.
      rewrite Hcp, !length_app, Hlen.
      destruct (btw =? 0) eqn:Hb0; [lia|].
      split; [|split; [cbn; lia|reflexivity]].
      rewrite Hfbns.
      destruct (btw - w =? 0) eqn:Hrest.
      * rewrite Hlastblk by lia. rewrite (seqZ_cons i) by lia.
        cbn. f_equal. rewrite !seqZ_nil by lia. reflexivity.
      * rewrite (seqZ_cons i (_ - i + 1)).
        -- cbn. f_equal. f_equal; lia.
        -- assert ((c + bufOff) / BYTESPERBLOCK
                   <= (c + numb - 1) / BYTESPERBLOCK)
             by (apply Z.div_le_mono; unfold BYTESPERBLOCK; lia).
           lia.
    + intros Hmore.
      assert (Hnext : (c + (bufOff + w)) / BYTESPERBLOCK = i + 1
                      /\ (c + (bufOff + w)) mod BYTESPERBLOCK = 0).
      { apply block_div_mod; unfold BYTESPERBLOCK in *; lia. }
      destruct Hnext as [Hn1 Hn2]. split; [symmetry; exact Hn1|].
      right. split; [reflexivity|exact Hn2].
Qed.

Section TraceProps.

Context {descriptors : Descriptors}.

(** X5.  The blocks [fsRead] resolves.  A returning [fsRead] on an open
    descriptor resolves, in increasing order and once each, the file blocks
    from the block of the cursor to the block of the byte [cursor + numb],
    the first byte after the range: at least one block even for [numb = 0],
    and one block more than the range has when the range ends on a block
    boundary.  It calls [bioWrite] for none. *)
Theorem fsRead_resolves_blocks (fd numb : Z) (buf : list byte)
    (st st' : FS) (c : Z) (res : Z * list byte) :
  open_cursor st (bfsFdToInum fd) = Some c ->
  0 <= c -> 0 <= numb -> c + numb < 2 ^ 31 ->
  fsRead fd numb buf st = Ok res st' ->
  exists added,
    trace st' = trace st ++ added
    /\ resolved_fbns added
       = seqZ (c / BYTESPERBLOCK)
              ((c + numb) / BYTESPERBLOCK - c / BYTESPERBLOCK + 1)
    /\ written_dbns added = [].
Proof.
  intros Hopen Hc Hnumb Hmax Hrun.
  unfold fsRead in Hrun.
  rewrite (bind_eq _ _ _ _ _ (bfsTell_open _ _ _ Hopen)) in Hrun.
  unfold fsRead_at in Hrun.
  destruct (block_bounds c Hc) as (Hd & Hm & Hdm).
  destruct (block_bounds (c + numb) ltac:(lia)) as (Hd' & Hm' & Hdm').
  assert (Hmono : c / BYTESPERBLOCK <= (c + numb) / BYTESPERBLOCK)
    by (apply Z.div_le_mono; unfold BYTESPERBLOCK; lia).
  rewrite (add32_id c numb) in Hrun by (unfold in_i32; lia).
  rewrite !div32_block in Hrun by lia.
  apply fsRead_loop_resolves in Hrun;
    [|lia|unfold BYTESPERBLOCK in *; lia].
  rewrite Z2Nat.id in Hrun by lia. exact Hrun.
Qed.

(** X6.  The blocks [fsWrite] resolves.  A returning [fsWrite] on an open
    descriptor resolves, in increasing order and once each, exactly the file
    blocks that hold the bytes of the range: none for [numb = 0], and not
    the block after a range that ends on a block boundary.  The disk blocks
    it reads and the disk blocks it writes back are the disk blocks the file
    blocks were resolved to, each once and in the same order, and its
    [memcpy] calls copy [numb] bytes in all. *)
Theorem fsWrite_resolves_blocks (fd numb : Z) (buf : list byte)
    (st st' : FS) (c r : Z) :
  open_cursor st (bfsFdToInum fd) = Some c ->
  0 <= c -> 0 <= numb -> c + numb < 2 ^ 31 ->
  fsWrite fd numb buf st = Ok r st' ->
  exists added,
    trace st' = trace st ++ added
    /\ resolved_fbns added
       = seqZ (c / BYTESPERBLOCK)
              (if numb =? 0 then 0
               else (c + numb - 1) / BYTESPERBLOCK - c / BYTESPERBLOCK + 1)
    /\ copied_bytes added = numb
    /\ length (written_dbns added) = length (resolved_fbns added)
    /\ written_dbns added = resolved_dbns added
    /\ read_dbns added = resolved_dbns added.
Proof.
  intros Hopen Hc Hnumb Hmax Hrun.
  unfold fsWrite in Hrun.
  rewrite (bind_eq _ _ _ _ _ (bfsTell_open _ _ _ Hopen)) in Hrun.
  cbv zeta in Hrun.
  destruct (block_bounds c Hc) as (Hd & Hm & Hdm).
  destruct (block_bounds (c + numb) ltac:(lia)) as (Hd' & Hm' & Hdm').
  assert (Hmono : c / BYTESPERBLOCK <= (c + numb) / BYTESPERBLOCK)
    by (apply Z.div_le_mono; unfold BYTESPERBLOCK; lia).
  assert (Hlast : (c + numb - 1) / BYTESPERBLOCK
                  <= (c + numb) / BYTESPERBLOCK)
    by (apply Z.div_le_mono; unfold BYTESPERBLOCK; lia).
  rewrite (add32_id c numb) in Hrun by (unfold in_i32; lia).
  rewrite !div32_block in Hrun by lia.
  assert (Hbio :
    sub32 (mul32 (add32 (c / BYTESPERBLOCK) 1) BYTESPERBLOCK) c
    = BYTESPERBLOCK - c mod BYTESPERBLOCK).
  { rewrite add32_id by (unfold in_i32, BYTESPERBLOCK in *; lia).
    unfold sub32, mul32. rewrite wrap32_sub_l.
    rewrite wrap32_id; unfold in_i32, BYTESPERBLOCK in *; lia. }
  rewrite Hbio in Hrun.
  apply bind_Ok in Hrun as ([] & st1 & Hloop & Hrun).
  apply bind_Ok in Hrun as (x & st2 & Hset & Hrun).
  injection Hrun as _ <-.
  rewrite (bfsSetCursor_trace _ _ _ _ _ Hset).
  apply (fsWrite_loop_resolves (bfsFdToInum fd) c numb buf Hc Hnumb Hmax)
    in Hloop; try lia.
  - destruct Hloop as (added & Htr & Hwd & Hrd & Hfbns & Hcp & Hlen).
    exists added. auto 10.
  - intros _. rewrite Z.add_0_r. auto.
Qed.

End TraceProps.

(** ** Writes: what they keep, and how they follow one another *)

Section WriteProps.

Context {descriptors : Descriptors}.

(** X7.  [fsWrite] touches the range only: after a successful [fsWrite] of
    [numb] bytes at cursor [c], every byte the file had outside
    [c, c + numb) is still its byte there. *)
Theorem fsWrite_keeps_bytes_outside (fd numb : Z) (buf : list byte)
    (st st' : FS) (c r : Z) :
  open_cursor st (bfsFdToInum fd) = Some c ->
  wf_file st (bfsFdToInum fd) = true ->
  0 <= c -> 0 <= numb -> c + numb < 2 ^ 31 ->
  numb <= Z.of_nat (length buf) ->
  fsWrite fd numb buf st = Ok r st' ->
  forall p v, 0 <= p -> ~ (c <= p < c + numb) ->
    file_byte st (bfsFdToInum fd) p = Some v ->
    file_byte st' (bfsFdToInum fd) p = Some v.
Proof.
  intros Hopen Hwf Hc Hnumb Hmax Hbuf Hrun.
  apply wf_file_WF in Hwf as [ino Hwf].
  destruct (fsWrite_spec _ _ _ _ _ _ _ _ Hopen Hwf Hc Hnumb Hmax Hbuf Hrun)
    as (_ & _ & ino' & _ & _ & _ & Hframe & _).
  exact Hframe.
Qed.

(** X8.  Two writes in a row append: after [fsWrite] of [B1] and then of
    [B2] through the same descriptor, the file holds [B1 ++ B2] from the
    cursor of the first call on, and the cursor is behind the last byte. *)
Theorem fsWrite_twice_appends (fd : Z) (B1 B2 : list byte) (st st' : FS)
    (c r : Z) :
  open_cursor st (bfsFdToInum fd) = Some c ->
  wf_file st (bfsFdToInum fd) = true ->
  0 <= c ->
  c + Z.of_nat (length B1) + Z.of_nat (length B2) < 2 ^ 31 ->
  (do _ <- fsWrite fd (Z.of_nat (length B1)) B1;
   fsWrite fd (Z.of_nat (length B2)) B2) st = Ok r st' ->
  r = 0
  /\ fsTell fd st'
     = Ok (c + Z.of_nat (length B1) + Z.of_nat (length B2)) st'
  /\ forall k, 0 <= k < Z.of_nat (length (B1 ++ B2)) ->
       file_byte st' (bfsFdToInum fd) (c + k) = (B1 ++ B2) !! Z.to_nat k.
Proof.
  intros Hopen Hwf Hc Hmax Hrun.
  apply wf_file_WF in Hwf as [ino Hwf].
  apply bind_Ok in Hrun as (x & st1 & Hw1 & Hw2).
  assert (Hmax1 : c + Z.of_nat (length B1) < 2 ^ 31) by lia.
  assert (Hc1 : 0 <= c + Z.of_nat (length B1)) by lia.
  destruct (fsWrite_spec _ _ _ _ _ _ _ _ Hopen Hwf Hc
              (Nat2Z.is_nonneg _) Hmax1 (Z.le_refl _) Hw1)
    as (_ & Hcur1 & ino1 & Hwf1 & _ & _ & _ & Hnew1).
  destruct (fsWrite_spec _ _ _ _ _ _ _ _ Hcur1 Hwf1 Hc1
              (Nat2Z.is_nonneg _) Hmax (Z.le_refl _) Hw2)
    as (Hr & Hcur2 & ino2 & _ & _ & _ & Hframe2 & Hnew2).
  split; [assumption|]. split; [apply bfsTell_open; assumption|].
  intros k Hk. rewrite length_app in Hk.
  destruct (Z_lt_dec k (Z.of_nat (length B1))) as [Hin|Hout].
  - rewrite lookup_app_l by lia.
    assert (Hs : is_Some (B1 !! Z.to_nat k))
      by (apply lookup_lt_is_Some_2; lia).
    destruct Hs as [b Hb]. rewrite Hb.
    apply Hframe2; [lia|lia|]. rewrite Hnew1 by lia. assumption.
  - rewrite lookup_app_r by lia.
    replace (c + k)
      with (c + Z.of_nat (length B1) + (k - Z.of_nat (length B1))) by lia.
    rewrite Hnew2 by lia. f_equal. lia.
Qed.

End WriteProps.

(** ** A write and the other files *)

Lemma write_effect_refl (inum : Z) (ino : Inode) (st : FS) :
  inode_at inum st = Some ino -> write_effect inum ino st st.
Proof.
  intros Hino. split; auto.
  exists ino, []. rewrite app_nil_r. repeat split; auto.
Qed.

Lemma write_effect_log (inum : Z) (ino : Inode) (st st1 : FS) (e : event) :
  write_effect inum ino st st1 -> write_effect inum ino st (log_event e st1).
Proof. intros [Ho Hj Hi Hu Hf]. split; assumption. Qed.

Lemma write_effect_trans (inum : Z) (ino ino1 : Inode) (st st1 st2 : FS) :
  inode_at inum st1 = Some ino1 ->
  write_effect inum ino st st1 -> write_effect inum ino1 st1 st2 ->
  write_effect inum ino st st2.
Proof.
  intros Hino1 [Ho1 Hj1 (i1 & x1 & Hi1 & Hs1 & Hb1 & Hf1 & Hd1) Hu1 Hfr1]
         [Ho2 Hj2 (i2 & x2 & Hi2 & Hs2 & Hb2 & Hf2 & Hd2) Hu2 Hfr2].
  rewrite Hino1 in Hi1. injection Hi1 as <-.
  split.
  - congruence.
  - intros j Hj. rewrite Hj2, Hj1; auto.
  - exists i2, (x1 ++ x2). split; [assumption|]. split; [congruence|].
    split; [rewrite Hb2, Hb1, app_assoc; reflexivity|]. split.
    + apply Forall_app. split; [assumption|].
      eapply Forall_impl; [exact Hf2|]. simpl. auto.
    + intros d Hd Hnot. rewrite Hd2 by assumption. apply Hd1; [assumption|].
      intros Hin. apply Hnot. rewrite Hb2. apply elem_of_app. auto.
  - auto.
  - auto.
Qed.

Lemma bfsFbnToDbn_effect (st st1 : FS) (inum fbn dbn : Z) (ino : Inode) :
  inode_at inum st = Some ino ->
  bfsFbnToDbn inum fbn st = Ok dbn st1 ->
  write_effect inum ino st st1
  /\ disk st1 = disk st
  /\ exists ino1, inode_at inum st1 = Some ino1 /\ dbn ∈ iblocks ino1.
Proof.
  intros Hino. unfold bfsFbnToDbn. rewrite Hino.
  destruct (fbn <? 0); [discriminate|].
  destruct (iblocks ino !! Z.to_nat fbn) as [d|] eqn:Hd.
  - intros [= <- <-]. split; [|split; [reflexivity|]].
    + apply write_effect_log, write_effect_refl. exact Hino.
    + exists ino. split; [exact Hino|].
      eapply list_elem_of_lookup_2. exact Hd.
  - destruct (fbn =? Z.of_nat (length (iblocks ino))); [|discriminate].
    unfold bind, bfsAllocBlock.
    destruct (find_index negb (freelist st)) as [k|] eqn:Hk; [|discriminate].
    simpl. intros [= <- <-].
    destruct (find_index_Some _ _ _ Hk) as (b & Hb & Hnb).
    destruct b; [discriminate|].
    assert (Hnew : inode_at inum
                     (log_event (EvFbnToDbn inum fbn (Z.of_nat k))
                        (set_inodes
                           (<[Z.to_nat inum :=
                                mkInode (isize ino)
                                  (iblocks ino ++ [Z.of_nat k])]>
                              (inodes st))
                           (set_freelist (<[k:=true]> (freelist st)) st)))
                   = Some (mkInode (isize ino)
                             (iblocks ino ++ [Z.of_nat k]))).
    { unfold inode_at in *. simpl.
      destruct (inum <? 0); [discriminate|].
      apply list_lookup_insert_eq. apply lookup_lt_Some in Hino.
      assumption. }
    split; [split|split; [reflexivity|]].
    + reflexivity.
    + intros j Hj. unfold inode_at in *. simpl.
      destruct (j <? 0) eqn:Hjn; [reflexivity|].
      destruct (inum <? 0) eqn:Hin; [discriminate|].
      apply list_lookup_insert_ne. lia.
    + eexists _, [Z.of_nat k]. split; [exact Hnew|].
      repeat split; simpl.
      * apply Forall_singleton. rewrite Nat2Z.id. assumption.
    + intros j Hj. simpl.
      destruct (decide (k = j)) as [<-|Hne].
      * apply list_lookup_insert_eq. apply lookup_lt_Some in Hb. assumption.
      * rewrite list_lookup_insert_ne by assumption. assumption.
    + intros j Hj. simpl in Hj.
      destruct (decide (k = j)) as [<-|Hne].
      * rewrite list_lookup_insert_eq in Hj
          by (apply lookup_lt_Some in Hb; assumption).
        discriminate.
      * rewrite list_lookup_insert_ne in Hj by assumption. assumption.
    + eexists. split; [exact Hnew|]. simpl.
      apply elem_of_app. right. apply list_elem_of_singleton. reflexivity.
Qed.

Lemma write_back_effect (st1 st' : FS) (dbn off w : Z) (src : list byte)
    (k : M unit) :
  (do bio <- bioRead dbn;
   do bio' <- do_memcpy bio off src w;
   do _ <- bioWrite dbn bio';
   k) st1 = Ok tt st' ->
  exists st4,
    k st4 = Ok tt st'
    /\ 0 <= dbn
    /\ g_oft st4 = g_oft st1
    /\ inodes st4 = inodes st1
    /\ freelist st4 = freelist st1
    /\ forall d, 0 <= d -> d <> dbn ->
         disk st4 !! Z.to_nat d = disk st1 !! Z.to_nat d.
Proof.
  intros Hrun.
  apply bind_Ok in Hrun as (bio & st2 & Hrd & Hrun).
  apply bind_Ok in Hrun as (bio' & st3 & Hcp & Hrun).
  apply bind_Ok in Hrun as ([] & st4 & Hwr & Hrun).
  unfold do_memcpy, bind, modify, ret in Hcp. injection Hcp as <- <-.
  unfold bioRead in Hrd. destruct (dbn <? 0) eqn:Hneg; [discriminate|].
  destruct (disk st1 !! Z.to_nat dbn) eqn:Hb; [|discriminate].
  injection Hrd as _ <-.
  unfold bioWrite in Hwr. rewrite Hneg in Hwr. simpl in Hwr.
  rewrite Hb in Hwr. injection Hwr as <-.
  exists (log_event (EvBioWrite dbn)
            (set_disk (<[Z.to_nat dbn := memcpy bio off src w]> (disk st1))
               (log_event (EvMemcpy w) (log_event (EvBioRead dbn) st1)))).
  split; [assumption|]. split; [lia|]. repeat split.
  intros d Hd Hne. simpl. apply list_lookup_insert_ne. lia.
Qed.

Lemma fsWrite_loop_effect (inum : Z) (buf : list byte) (n : nat) :
  forall (i btw bioOff bufOff : Z) (st st' : FS) (ino : Inode),
  inode_at inum st = Some ino ->
  fsWrite_loop n inum buf i btw bioOff bufOff st = Ok tt st' ->
  write_effect inum ino st st'.
Proof.
  induction n as [|n IH]; intros i btw bioOff bufOff st st' ino Hino Hrun.
  - injection Hrun as <-. apply write_effect_refl. assumption.
  - cbn [fsWrite_loop] in Hrun.
    destruct (btw =? 0).
    { injection Hrun as <-. apply write_effect_refl. assumption. }
    apply bind_Ok in Hrun as (dbn & st1 & Hres & Hrun).
    destruct (bfsFbnToDbn_effect _ _ _ _ _ _ Hino Hres)
      as (He1 & Hd1 & ino1 & Hino1 & Hin1).
    assert (Hstep : forall st4,
      0 <= dbn -> g_oft st4 = g_oft st1 -> inodes st4 = inodes st1 ->
      freelist st4 = freelist st1 ->
      (forall d, 0 <= d -> d <> dbn ->
         disk st4 !! Z.to_nat d = disk st1 !! Z.to_nat d) ->
      inode_at inum st4 = Some ino1 /\ write_effect inum ino1 st1 st4).
    { intros st4 Hdbn Ho Hi Hf Hd.
      assert (Hino4 : inode_at inum st4 = Some ino1)
        by (unfold inode_at in *; rewrite Hi; assumption).
      split; [assumption|]. split.
      - assumption.
      - intros j Hj. unfold inode_at. rewrite Hi. reflexivity.
      - exists ino1, []. rewrite app_nil_r.
        split; [assumption|]. repeat split; auto.
        intros d Hd0 Hnot. apply Hd; [assumption|].
        intros ->. contradiction.
      - intros k Hk. rewrite Hf. assumption.
      - intros k Hk. rewrite <- Hf. assumption. }
    destruct (0 <? bioOff).
    + apply write_back_effect in Hrun
        as (st4 & Hrun & Hdbn & Ho & Hi & Hf & Hd).
      destruct (Hstep st4 Hdbn Ho Hi Hf Hd) as [Hino4 He4].
      apply (write_effect_trans inum ino ino1 st st1 st'); auto.
      apply (write_effect_trans inum ino1 ino1 st1 st4 st'); auto.
      eapply IH; eassumption.
    + apply write_back_effect in Hrun
        as (st4 & Hrun & Hdbn & Ho & Hi & Hf & Hd).
      destruct (Hstep st4 Hdbn Ho Hi Hf Hd) as [Hino4 He4].
      apply (write_effect_trans inum ino ino1 st st1 st'); auto.
      apply (write_effect_trans inum ino1 ino1 st1 st4 st'); auto.
      eapply IH; eassumption.
Qed.

Lemma open_cursor_with_cursor_other (st : FS) (inum j x : Z) :
  inum <> j ->
  open_cursor (with_cursor inum x st) j = open_cursor st j.
Proof.
  intros Hne. unfold with_cursor.
  destruct (find_index (ofte_matches inum) (g_oft st)) as [k|] eqn:Hk;
    [|reflexivity].
  unfold open_cursor. simpl.
  rewrite find_index_alter by (intros e; apply ofte_matches_set_curs).
  destruct (find_index (ofte_matches j) (g_oft st)) as [k'|] eqn:Hk';
    [|reflexivity].
  destruct (decide (k = k')) as [<-|Hkk].
  - exfalso.
    destruct (find_index_Some _ _ _ Hk) as (e & He & Hm).
    destruct (find_index_Some _ _ _ Hk') as (e' & He' & Hm').
    rewrite He in He'. injection He' as <-.
    unfold ofte_matches in *.
    apply andb_prop in Hm as [Hm _]. apply andb_prop in Hm' as [Hm' _].
    lia.
  - rewrite list_lookup_alter_ne by assumption. reflexivity.
Qed.

Lemma files_apart_prop (st : FS) (i j : Z) :
  files_apart st i j = true <->
  exists ino jno,
    inode_at i st = Some ino /\ inode_at j st = Some jno
    /\ Forall (fun d => (0 <= d /\ freelist st !! Z.to_nat d = Some true)
                        /\ d ∉ iblocks ino) (iblocks jno).
Proof.
  unfold files_apart. split.
  - destruct (inode_at i st) as [ino|]; [|discriminate].
    destruct (inode_at j st) as [jno|]; [|discriminate].
    intros H. exists ino, jno. repeat split.
    apply Forall_forall. intros d Hd. rewrite forallb_forall in H.
    specialize (H d). rewrite <- list_elem_of_In in H. specialize (H Hd).
    apply andb_prop in H as [Hu Hn]. unfold block_used in Hu.
    apply andb_prop in Hu as [H0 H1]. apply bool_decide_eq_true in H1.
    apply negb_true_iff, bool_decide_eq_false in Hn.
    repeat split; [lia|assumption|assumption].
  - intros (ino & jno & -> & -> & H). apply forallb_forall.
    intros d Hd. rewrite <- list_elem_of_In in Hd.
    rewrite Forall_forall in H. destruct (H d Hd) as [[H0 H1] Hn].
    unfold block_used. rewrite !andb_true_iff. repeat split.
    + lia.
    + apply bool_decide_eq_true. assumption.
    + apply negb_true_iff, bool_decide_eq_false. assumption.
Qed.

Section Isolation.

Context {descriptors : Descriptors}.

(** X9.  A write stays in its file.  When the blocks of another file [j] are
    marked used and none of them is a block of the file written, a successful
    [fsWrite] changes no byte, not the size and not the cursor of [j], and
    the two files are still apart afterwards: the blocks the write resolves
    are blocks of its own file or blocks that were free. *)
Theorem fsWrite_leaves_other_files (fd numb j : Z) (buf : list byte)
    (st st' : FS) (c r : Z) :
  open_cursor st (bfsFdToInum fd) = Some c ->
  j <> bfsFdToInum fd ->
  files_apart st (bfsFdToInum fd) j = true ->
  fsWrite fd numb buf st = Ok r st' ->
  (forall p, file_byte st' j p = file_byte st j p)
  /\ size_of st' j = size_of st j
  /\ open_cursor st' j = open_cursor st j
  /\ files_apart st' (bfsFdToInum fd) j = true.
Proof.
  intros Hopen Hj Hapart Hrun.
  set (inum := bfsFdToInum fd) in *.
  apply files_apart_prop in Hapart as (ino & jno & Hino & Hjno & Hall).
  unfold fsWrite in Hrun. fold inum in Hrun.
  rewrite (bind_eq _ _ _ _ _ (bfsTell_open _ _ _ Hopen)) in Hrun.
  cbv zeta in Hrun.
  apply bind_Ok in Hrun as ([] & st1 & Hloop & Hrun).
  apply (fsWrite_loop_effect inum buf _ _ _ _ _ _ _ ino Hino) in Hloop.
  destruct Hloop as [Ho Hoth (ino' & extra & Hino' & _ & Hb & Hfree & Hd)
                        Hu _].
  assert (Hopen1 : open_cursor st1 inum = Some c)
    by (rewrite (open_cursor_oft _ _ _ Ho); assumption).
  rewrite (bind_eq _ _ _ _ _ (bfsSetCursor_open _ _ _ _ Hopen1)) in Hrun.
  injection Hrun as _ <-.
  assert (Hjno1 : inode_at j st1 = Some jno) by (rewrite Hoth; assumption).
  assert (Hall1 : Forall (fun d =>
             (0 <= d /\ freelist st1 !! Z.to_nat d = Some true)
             /\ d ∉ iblocks ino') (iblocks jno)).
  { eapply Forall_impl; [exact Hall|]. simpl.
    intros d [[H0 H1] Hn]. split; [split; [assumption|auto]|].
    rewrite Hb. intros [Hin|Hin]%elem_of_app; [contradiction|].
    rewrite Forall_forall in Hfree. specialize (Hfree d Hin). congruence. }
  repeat split.
  - intros p. rewrite file_byte_with_cursor.
    unfold file_byte. rewrite Hjno1, Hjno.
    destruct (iblocks jno !! Z.to_nat (p / BYTESPERBLOCK)) as [d|] eqn:Hdp;
      [|reflexivity].
    destruct (d <? 0) eqn:Hdn; [reflexivity|].
    rewrite Hd; [reflexivity|lia|].
    rewrite Forall_forall in Hall1.
    apply (Hall1 d). eapply list_elem_of_lookup_2. exact Hdp.
  - rewrite size_of_with_cursor. unfold size_of. rewrite Hjno1, Hjno.
    reflexivity.
  - rewrite open_cursor_with_cursor_other by auto.
    apply open_cursor_oft. assumption.
  - apply files_apart_prop. exists ino', jno.
    rewrite !inode_at_with_cursor.
    split; [assumption|]. split; [assumption|].
    destruct (with_cursor_frame st1 inum (add32 c numb)) as (_ & -> & _).
    assumption.
Qed.

End Isolation.

(** ** What a read keeps of the files *)

Lemma files_kept_same (inum : Z) (st st' : FS) :
  inodes st' = inodes st -> disk st' = disk st -> files_kept inum st st'.
Proof.
  intros Hi Hd. unfold files_kept, inode_at. rewrite Hi.
  split; [assumption|]. split; [reflexivity|].
  intros ino Hino. exists ino, []. rewrite app_nil_r. auto.
Qed.

Lemma files_kept_trans (inum : Z) (st st1 st2 : FS) :
  files_kept inum st st1 -> files_kept inum st1 st2 ->
  files_kept inum st st2.
Proof.
  intros (Hd1 & Ho1 & Hi1) (Hd2 & Ho2 & Hi2).
  split; [congruence|]. split.
  - intros j Hj. rewrite Ho2, Ho1 by assumption. reflexivity.
  - intros ino Hino.
    destruct (Hi1 ino Hino) as (ino1 & e1 & Hino1 & Hs1 & Hb1).
    destruct (Hi2 ino1 Hino1) as (ino2 & e2 & Hino2 & Hs2 & Hb2).
    exists ino2, (e1 ++ e2). split; [assumption|].
    split; [congruence|]. rewrite Hb2, Hb1, app_assoc. reflexivity.
Qed.

Lemma bfsFbnToDbn_files_kept (st st1 : FS) (inum fbn dbn : Z) :
  bfsFbnToDbn inum fbn st = Ok dbn st1 -> files_kept inum st st1.
Proof.
  intros Hrun.
  destruct (inode_at inum st) as [ino|] eqn:Hino.
  - destruct (bfsFbnToDbn_effect _ _ _ _ _ _ Hino Hrun)
      as ([_ Hothers (ino' & extra & Hino' & Hsz & Hblk & _) _ _] & Hd & _).
    split; [assumption|]. split; [assumption|].
    intros ino0 Heq. rewrite Hino in Heq. injection Heq as <-.
    exists ino', extra. auto.
  - unfold bfsFbnToDbn in Hrun. rewrite Hino in Hrun. discriminate.
Qed.

Lemma fsRead_loop_files_kept (n : nat) (inum numb fbnStart fbnEnd : Z) :
  forall (fbn cursor rb : Z) (buf : list byte) (st st' : FS)
         (res : Z * list byte),
  fsRead_loop n inum numb fbnStart fbnEnd fbn cursor rb buf st = Ok res st' ->
  files_kept inum st st'.
Proof.
  induction n as [|n IH]; intros fbn cursor rb buf st st' res Hrun.
  - injection Hrun as _ <-. apply files_kept_same; reflexivity.
  - apply fsRead_loop_calls in Hrun
      as (dbn & st1 & bio & st2 & x & st4 & Hres & Hrd & Hset & Hrun).
    apply IH in Hrun. apply bfsFbnToDbn_files_kept in Hres.
    apply bfsSetCursor_keeps in Hset as (Hi4 & _ & Hd4).
    unfold bioRead in Hrd. destruct (dbn <? 0); [discriminate|].
    destruct (disk st1 !! Z.to_nat dbn); [|discriminate].
    injection Hrd as _ <-. simpl in *.
    apply (files_kept_trans _ _ st1); [assumption|].
    apply (files_kept_trans _ _ st4); [|assumption].
    apply files_kept_same; assumption.
Qed.

Lemma files_kept_file_byte (inum : Z) (st st' : FS) (j p : Z) (v : byte) :
  files_kept inum st st' ->
  file_byte st j p = Some v -> file_byte st' j p = Some v.
Proof.
  intros (Hd & Hothers & Hinode). unfold file_byte.
  destruct (decide (j = inum)) as [->|Hne].
  - destruct (inode_at inum st) as [ino|]; [|discriminate].
    destruct (Hinode ino eq_refl) as (ino' & extra & -> & _ & Hblk).
    destruct (iblocks ino !! Z.to_nat (p / BYTESPERBLOCK)) as [d|] eqn:Hb;
      [|discriminate].
    rewrite Hblk, (lookup_app_l_Some _ _ _ _ Hb), Hd. auto.
  - rewrite Hothers, Hd by assumption. auto.
Qed.

Section ReadKeeps.

Context {descriptors : Descriptors}.

(** X3.  What [fsRead] keeps of the files.  Whatever its arguments, a
    returning [fsRead] takes nothing away from any file: the logical size of
    every file is as it was, every byte a file had is still its byte at the
    same offset, and the inode of every file but the one read is unchanged.
    The file read is not always left as it was: its inode keeps its size and
    its blocks, but blocks may have been added after them, since [fsRead]
    resolves its blocks through [bfsFbnToDbn]. *)
Theorem fsRead_keeps_file_contents (fd numb : Z) (buf : list byte)
    (st st' : FS) (res : Z * list byte) :
  fsRead fd numb buf st = Ok res st' ->
  (forall j, size_of st' j = size_of st j)
  /\ (forall j p v, file_byte st j p = Some v -> file_byte st' j p = Some v)
  /\ (forall j, j <> bfsFdToInum fd -> inode_at j st' = inode_at j st)
  /\ (forall ino, inode_at (bfsFdToInum fd) st = Some ino ->
        exists ino' extra,
          inode_at (bfsFdToInum fd) st' = Some ino'
          /\ isize ino' = isize ino
          /\ iblocks ino' = iblocks ino ++ extra).
Proof.
  unfold fsRead. intros Hrun.
  apply bind_Ok in Hrun as (c & st0 & Htell & Hrun).
  unfold fsRead_at in Hrun.
  assert (H0 : inodes st0 = inodes st /\ disk st0 = disk st).
  { unfold bfsTell, bind, bfsFindOFTE, load_curs, gets in Htell.
    destruct (find_index (ofte_matches (bfsFdToInum fd)) (g_oft st)).
    - injection Htell as _ <-. auto.
    - destruct (find_index ofte_free (g_oft st)); [|discriminate].
      injection Htell as _ <-. auto. }
  destruct H0 as [Hi0 Hd0].
  assert (Hkept : files_kept (bfsFdToInum fd) st st').
  { apply (files_kept_trans _ _ st0); [apply files_kept_same; assumption|].
    eapply fsRead_loop_files_kept. exact Hrun. }
  apply fsRead_loop_keeps in Hrun as [_ Hs].
  split.
  { intros j. rewrite Hs. unfold size_of, inode_at. rewrite Hi0.
    reflexivity. }
  split.
  { intros j p v. apply (files_kept_file_byte _ _ _ _ _ _ Hkept). }
  destruct Hkept as (_ & Hothers & Hinode). split; assumption.
Qed.

End ReadKeeps.

(** ** More on [fsSeek] *)

Lemma with_cursor_with_cursor (st : FS) (inum x y : Z) :
  with_cursor inum y (with_cursor inum x st) = with_cursor inum y st.
Proof.
  unfold with_cursor.
  destruct (find_index (ofte_matches inum) (g_oft st)) as [k|] eqn:Hk.
  - simpl.
    rewrite find_index_alter by (intros e; apply ofte_matches_set_curs).
    rewrite Hk. unfold set_oft. simpl. f_equal.
    rewrite list_alter_alter_eq. apply list_alter_ext; [|reflexivity].
    intros e _. reflexivity.
  - rewrite Hk. reflexivity.
Qed.

Section SeekProps.

Context {descriptors : Descriptors}.

(** A returning [fsSeek] on an open descriptor returns 0 and has set the
    cursor of the entry of the inode, nothing else. *)
Lemma fsSeek_result (fd offset whence : Z) (st st' : FS) (c r : Z) :
  open_cursor st (bfsFdToInum fd) = Some c ->
  fsSeek fd offset whence st = Ok r st' ->
  r = 0 /\ exists x, st' = with_cursor (bfsFdToInum fd) x st.
Proof.
  intros Hopen.
  destruct (open_cursor_entry _ _ _ Hopen) as (k & e & Hk & He & Hc).
  unfold fsSeek. destruct (offset <? 0); [discriminate|].
  unfold bind, bfsFindOFTE. rewrite Hk.
  unfold with_cursor. rewrite Hk.
  destruct (whence =? SEEK_SET).
  { unfold store_curs, modify, ret. rewrite Nat2Z.id.
    intros [= <- <-]. eauto. }
  destruct (whence =? SEEK_CUR).
  { unfold load_curs, gets, store_curs, modify, ret. rewrite Nat2Z.id.
    intros [= <- <-]. eauto. }
  destruct (whence =? SEEK_END); [|discriminate].
  unfold fsSize, bfsGetSize.
  destruct (inode_at (bfsFdToInum fd) st); [|discriminate].
  unfold store_curs, modify, ret. rewrite Nat2Z.id.
  intros [= <- <-]. eauto.
Qed.

Lemma fsSeek_cur_open (fd x : Z) (st : FS) (c : Z) :
  open_cursor st (bfsFdToInum fd) = Some c -> 0 <= x -> in_i32 (c + x) ->
  fsSeek fd x SEEK_CUR st = Ok 0 (with_cursor (bfsFdToInum fd) (c + x) st).
Proof.
  intros Hopen Hx Hr.
  destruct (open_cursor_entry _ _ _ Hopen) as (k & e & Hk & He & Hc).
  unfold fsSeek. destruct (x <? 0) eqn:Hneg; [lia|].
  unfold bind, bfsFindOFTE. rewrite Hk. simpl.
  unfold load_curs, gets. rewrite Nat2Z.id, He. simpl.
  rewrite Hc, add32_id by assumption.
  unfold with_cursor. rewrite Hk. reflexivity.
Qed.

(** X10.  The order of the checks of [fsSeek].  On an open descriptor, a
    [whence] that is none of [SEEK_SET], [SEEK_CUR] and [SEEK_END] aborts
    with [EBADWHENCE] when [offset] is not negative, and with [EBADCURS] when
    it is: the offset is checked first.  The cursor is not checked against
    the size: [SEEK_SET] accepts every [offset >= 0]. *)
Theorem fsSeek_bad_whence (fd offset whence : Z) (st : FS) (c : Z) :
  open_cursor st (bfsFdToInum fd) = Some c ->
  whence <> SEEK_SET -> whence <> SEEK_CUR -> whence <> SEEK_END ->
  fsSeek fd offset whence st
  = Fatal (if offset <? 0 then EBADCURS else EBADWHENCE).
Proof.
  intros Hopen H0 H1 H2.
  destruct (bfsFindOFTE_open _ _ _ Hopen) as (k & Hk & Hfind).
  unfold fsSeek. destruct (offset <? 0); [reflexivity|].
  unfold bind. rewrite Hfind.
  destruct (whence =? SEEK_SET) eqn:E0; [lia|].
  destruct (whence =? SEEK_CUR) eqn:E1; [lia|].
  destruct (whence =? SEEK_END) eqn:E2; [lia|].
  reflexivity.
Qed.

(** X11.  [fsSeek] moves one cursor only.  A returning [fsSeek] on an open
    descriptor returns 0 and leaves the inodes, the free list, the disk and
    the trace as they were, and with them the bytes and the size of every
    file; the cursor of every other inode is kept, and no reference count
    changes. *)
Theorem fsSeek_moves_one_cursor (fd offset whence : Z) (st st' : FS)
    (c r : Z) :
  open_cursor st (bfsFdToInum fd) = Some c ->
  fsSeek fd offset whence st = Ok r st' ->
  r = 0
  /\ inodes st' = inodes st /\ freelist st' = freelist st
  /\ disk st' = disk st /\ trace st' = trace st
  /\ (forall j p, file_byte st' j p = file_byte st j p)
  /\ (forall j, j <> bfsFdToInum fd ->
        open_cursor st' j = open_cursor st j)
  /\ map refs (g_oft st') = map refs (g_oft st).
Proof.
  intros Hopen Hrun.
  destruct (fsSeek_result _ _ _ _ _ _ _ Hopen Hrun) as [Hr [x ->]].
  destruct (with_cursor_frame st (bfsFdToInum fd) x) as (Hi & Hf & Hd & Ht).
  repeat split; try assumption.
  - intros j p. apply file_byte_with_cursor.
  - intros j Hj. apply open_cursor_with_cursor_other. auto.
  - unfold with_cursor.
    destruct (find_index (ofte_matches (bfsFdToInum fd)) (g_oft st)) as [k|];
      [|reflexivity].
    simpl. apply list_eq. intros i. rewrite !list_lookup_fmap.
    destruct (decide (k = i)) as [<-|Hne].
    + rewrite list_lookup_alter_eq.
      destruct (g_oft st !! k); reflexivity.
    + rewrite list_lookup_alter_ne by assumption. reflexivity.
Qed.

(** X12.  Seeks compose.  On an open descriptor, [SEEK_SET] to [a] followed
    by [SEEK_CUR] by [b] is [SEEK_SET] to [a + b], and of two [SEEK_SET] in
    a row only the second counts. *)
Theorem fsSeek_composes (fd a b : Z) (st : FS) (c : Z) :
  open_cursor st (bfsFdToInum fd) = Some c ->
  0 <= a -> 0 <= b -> in_i32 (a + b) ->
  (do _ <- fsSeek fd a SEEK_SET; fsSeek fd b SEEK_CUR) st
  = fsSeek fd (a + b) SEEK_SET st
  /\ (do _ <- fsSeek fd a SEEK_SET; fsSeek fd b SEEK_SET) st
     = fsSeek fd b SEEK_SET st.
Proof.
  intros Hopen Ha Hb Hab.
  assert (Hopen1 : open_cursor (with_cursor (bfsFdToInum fd) a st)
                     (bfsFdToInum fd) = Some a)
    by (apply (open_cursor_with_cursor _ _ c); assumption).
  rewrite !(bind_eq _ _ _ _ _ (fsSeek_set_open _ a _ _ Hopen Ha)).
  rewrite (fsSeek_set_open _ b _ _ Hopen1 Hb).
  rewrite (fsSeek_set_open _ b _ _ Hopen Hb).
  rewrite (fsSeek_set_open _ (a + b) _ _ Hopen ltac:(lia)).
  rewrite (fsSeek_cur_open _ b _ _ Hopen1 Hb Hab).
  rewrite !with_cursor_with_cursor. split; reflexivity.
Qed.

End SeekProps.

(** ** One cursor for all the descriptors of a file *)

Section Sharing.

Context {descriptors : Descriptors}.


End Sharing.


(** ** The further properties at work on the example disk *)

(** 100 bytes asked for at cursor 500 of the file of 2000 bytes: 112 are
    counted. *)
Lemma fsRead_count_witness :
  let st' := state_of (@fsRead ex_fds 2 100 (repeat x00 100%nat)
                         (ex_state_2000 500)) (ex_state_2000 500) in
  112 = read_count 500 100 /\ @fsTell ex_fds 2 st' = Ok 612 st'.
Proof.
  intros st'.
  destruct (@fsRead_count ex_fds 2 100 (repeat x00 100%nat)
              (repeat x00 112%nat) (ex_state_2000 500) st' 500 112)
    as (H1 & H2 & _).
  - reflexivity.
  - reflexivity.
  - lia.
  - lia.
  - reflexivity.
  - vm_compute. reflexivity.
  - split; assumption.
Defined.

(** Ten bytes read at cursor 7 of the file of inode 2, whose block holds
    bytes [x42]. *)
Lemma fsRead_copies_file_bytes_witness :
  value_of (@fsRead ex_fds 4 10 (repeat x00 10%nat) (ex_state_two 0))
  = Some (10, repeat x42 10%nat)
  /\ repeat x42 10%nat !! 3%nat = Some x42.
Proof.
  split; [vm_compute; reflexivity|].
  destruct (@fsRead_copies_file_bytes ex_fds 4 10 (repeat x00 10%nat)
              (repeat x42 10%nat) (ex_state_two 0)
              (state_of (@fsRead ex_fds 4 10 (repeat x00 10%nat)
                           (ex_state_two 0)) (ex_state_two 0)) 7 10)
    as (_ & _ & H).
  - reflexivity.
  - reflexivity.
  - lia.
  - lia.
  - reflexivity.
  - vm_compute. reflexivity.
  - apply (H 3 x42); [lia|reflexivity].
Defined.

(** A read of 100 bytes from the end, at 1000, of a file of two blocks: the
    file read gains a third block and keeps its size, and the other file
    keeps its block and its bytes. *)
Lemma fsRead_keeps_file_contents_witness :
  let st := ex_state_two 1000 in
  let st' := state_of (@fsRead ex_fds 2 100 (repeat x00 100%nat) st) st in
  size_of st' 1 = Some 1000
  /\ file_byte st' 2 0 = Some x42
  /\ inode_at 2 st' = Some (mkInode 512 [4])
  /\ inode_at 1 st' = Some (mkInode 1000 [2; 3; 5]).
Proof.
  intros st st'.
  destruct (@fsRead_keeps_file_contents ex_fds 2 100 (repeat x00 100%nat)
              st st'
              (default (0, [])
                 (value_of (@fsRead ex_fds 2 100 (repeat x00 100%nat) st))))
    as (Hs & Hb & Ho & _).
  - vm_compute. reflexivity.
  - split; [rewrite Hs; reflexivity|].
    split; [apply Hb; reflexivity|].
    split; [rewrite Ho by discriminate; reflexivity|].
    vm_compute. reflexivity.
Defined.

(** 600 bytes written at cursor 0 of an empty file and read back. *)
Lemma write_seek_read_roundtrip_witness :
  value_of ((do _ <- @fsWrite ex_fds 2 600 (repeat x41 600%nat);
             do _ <- @fsSeek ex_fds 2 0 SEEK_SET;
             @fsRead ex_fds 2 600 (repeat x00 600%nat)) (ex_state 0))
  = Some (600, repeat x41 600%nat)
  /\ take 600 (repeat x41 600%nat) = repeat x41 600%nat.
Proof.
  split; [vm_compute; reflexivity|].
  destruct (@write_seek_read_roundtrip ex_fds 2 600 (repeat x41 600%nat)
              (repeat x00 600%nat) (repeat x41 600%nat) (ex_state 0)
              (state_of ((do _ <- @fsWrite ex_fds 2 600 (repeat x41 600%nat);
                          do _ <- @fsSeek ex_fds 2 0 SEEK_SET;
                          @fsRead ex_fds 2 600 (repeat x00 600%nat))
                           (ex_state 0)) (ex_state 0)) 0 600)
    as (_ & _ & H).
  - reflexivity.
  - reflexivity.
  - lia.
  - lia.
  - reflexivity.
  - reflexivity.
  - vm_compute. reflexivity.
  - apply H. left. reflexivity.
Defined.

(** A read of one block at cursor 0 resolves blocks 0 and 1. *)
Lemma fsRead_resolves_blocks_witness :
  exists added,
    trace (state_of (@fsRead ex_fds 2 512 (repeat x00 512%nat)
                       (ex_state_2000 0)) (ex_state_2000 0))
    = trace (ex_state_2000 0) ++ added
    /\ resolved_fbns added = [0; 1].
Proof.
  destruct (@fsRead_resolves_blocks ex_fds 2 512 (repeat x00 512%nat)
              (ex_state_2000 0)
              (state_of (@fsRead ex_fds 2 512 (repeat x00 512%nat)
                           (ex_state_2000 0)) (ex_state_2000 0))
              0 (512, repeat x00 512%nat))
    as (added & H1 & H2 & _).
  - reflexivity.
  - lia.
  - lia.
  - reflexivity.
  - vm_compute. reflexivity.
  - exists added. split; [exact H1|exact H2].
Defined.

(** A write of 100 bytes at cursor 500 of a file of four blocks: the file
    blocks 0 and 1 are resolved to the disk blocks 2 and 3, which are read
    and written back. *)
Lemma fsWrite_resolves_blocks_witness :
  exists added,
    trace (state_of (@fsWrite ex_fds 2 100 (repeat x41 100%nat)
                       (ex_state_2000 500)) (ex_state_2000 500))
    = trace (ex_state_2000 500) ++ added
    /\ resolved_fbns added = [0; 1] /\ copied_bytes added = 100
    /\ written_dbns added = resolved_dbns added
    /\ read_dbns added = resolved_dbns added
    /\ written_dbns added = [2; 3].
Proof.
  destruct (@fsWrite_resolves_blocks ex_fds 2 100 (repeat x41 100%nat)
              (ex_state_2000 500)
              (state_of (@fsWrite ex_fds 2 100 (repeat x41 100%nat)
                           (ex_state_2000 500)) (ex_state_2000 500))
              500 0)
    as (added & H1 & H2 & H3 & _ & H5 & H6).
  - reflexivity.
  - lia.
  - lia.
  - reflexivity.
  - vm_compute. reflexivity.
  - exists added. split; [exact H1|]. split; [exact H2|].
    split; [exact H3|]. split; [exact H5|]. split; [exact H6|].
    vm_compute in H1. subst added. reflexivity.
Defined.

(** Ten bytes written at cursor 7 of the file of inode 2: its byte 3 is
    kept. *)
Lemma fsWrite_keeps_bytes_outside_witness :
  file_byte (state_of (@fsWrite ex_fds 4 10 (repeat x41 10%nat)
                         (ex_state_two 0)) (ex_state_two 0)) 2 3
  = Some x42.
Proof.
  apply (@fsWrite_keeps_bytes_outside ex_fds 4 10 (repeat x41 10%nat)
           (ex_state_two 0) _ 7 0).
  - reflexivity.
  - reflexivity.
  - lia.
  - lia.
  - reflexivity.
  - simpl. lia.
  - vm_compute. reflexivity.
  - lia.
  - lia.
  - reflexivity.
Defined.

(** 300 bytes [x41] and then 300 bytes [x42] written to an empty file. *)
Lemma fsWrite_twice_appends_witness :
  let st' := state_of ((do _ <- @fsWrite ex_fds 2 300 (repeat x41 300%nat);
                        @fsWrite ex_fds 2 300 (repeat x42 300%nat))
                         (ex_state 0)) (ex_state 0) in
  @fsTell ex_fds 2 st' = Ok 600 st'
  /\ file_byte st' 1 299 = Some x41 /\ file_byte st' 1 300 = Some x42.
Proof.
  intros st'.
  destruct (@fsWrite_twice_appends ex_fds 2 (repeat x41 300%nat)
              (repeat x42 300%nat) (ex_state 0) st' 0 0)
    as (_ & H1 & H2).
  - reflexivity.
  - reflexivity.
  - lia.
  - reflexivity.
  - vm_compute. reflexivity.
  - split; [exact H1|]. split.
    + apply (H2 299). vm_compute. split; [discriminate|reflexivity].
    + apply (H2 300). vm_compute. split; [discriminate|reflexivity].
Defined.

(** 100 bytes written at cursor 1000 of the file of inode 1 take the free
    block 5; the file of inode 2 keeps its bytes. *)
Lemma fsWrite_leaves_other_files_witness :
  let st' := state_of (@fsWrite ex_fds 2 100 (repeat x41 100%nat)
                         (ex_state_two 1000)) (ex_state_two 1000) in
  file_byte st' 2 0 = Some x42
  /\ files_apart st' 1 2 = true.
Proof.
  intros st'.
  destruct (@fsWrite_leaves_other_files ex_fds 2 100 2 (repeat x41 100%nat)
              (ex_state_two 1000) st' 1000 0)
    as (H1 & _ & _ & H2).
  - reflexivity.
  - discriminate.
  - reflexivity.
  - vm_compute. reflexivity.
  - split; [rewrite H1; reflexivity|exact H2].
Defined.

Lemma fsSeek_bad_whence_witness :
  @fsSeek ex_fds 2 5 7 (ex_state_2000 500) = Fatal EBADWHENCE
  /\ @fsSeek ex_fds 2 (-5) 7 (ex_state_2000 500) = Fatal EBADCURS.
Proof.
  split.
  - apply (@fsSeek_bad_whence ex_fds 2 5 7 (ex_state_2000 500) 500);
      [reflexivity|discriminate|discriminate|discriminate].
  - apply (@fsSeek_bad_whence ex_fds 2 (-5) 7 (ex_state_2000 500) 500);
      [reflexivity|discriminate|discriminate|discriminate].
Defined.

(** A seek to the end of the file of inode 1 keeps the cursor of inode 2. *)
Lemma fsSeek_moves_one_cursor_witness :
  let st' := state_of (@fsSeek ex_fds 2 0 SEEK_END (ex_state_two 3))
               (ex_state_two 3) in
  disk st' = disk (ex_state_two 3) /\ open_cursor st' 2 = Some 7.
Proof.
  intros st'.
  destruct (@fsSeek_moves_one_cursor ex_fds 2 0 SEEK_END (ex_state_two 3)
              st' 3 0) as (_ & _ & _ & Hd & _ & _ & Hc & _).
  - reflexivity.
  - vm_compute. reflexivity.
  - split; [exact Hd|]. rewrite Hc; [reflexivity|discriminate].
Defined.

Lemma fsSeek_composes_witness :
  (do _ <- @fsSeek ex_fds 2 100 SEEK_SET; @fsSeek ex_fds 2 20 SEEK_CUR)
    (ex_state_2000 500)
  = @fsSeek ex_fds 2 120 SEEK_SET (ex_state_2000 500).
Proof.
  apply (@fsSeek_composes ex_fds 2 100 20 (ex_state_2000 500) 500).
  - reflexivity.
  - lia.
  - lia.
  - unfold in_i32. lia.
Defined.

(** Two reads of 100 bytes from cursor 500: 112 bytes and then 100. *)
Lemma fsRead_twice_contiguous_witness :
  let st1 := state_of (@fsRead ex_fds 2 100 (repeat x00 100%nat)
                         (ex_state_2000 500)) (ex_state_2000 500) in
  let st2 := state_of (@fsRead ex_fds 2 100 (repeat x00 100%nat) st1) st1 in
  @fsTell ex_fds 2 st2 = Ok 712 st2.
Proof.
  intros st1 st2.
  destruct (@fsRead_twice_contiguous ex_fds 2 100 100
              (repeat x00 100%nat) (repeat x00 100%nat)
              (repeat x00 112%nat) (repeat x00 100%nat)
              (ex_state_2000 500) st1 st2 500 112 100) as (H & _).
  - reflexivity.
  - reflexivity.
  - lia.
  - lia.
  - lia.
  - reflexivity.
  - vm_compute. reflexivity.
  - vm_compute. reflexivity.
  - exact H.
Defined.
